(** * SIP Toast update launcher: a model of [build/update-launcher.c]

    The launcher is one C function, [main], that talks to Windows through
    seven Win32 calls.  It is embedded as an interaction tree over an event
    type with one constructor per call; the C library functions it uses
    ([snprintf], [strrchr]) are pure functions on byte buffers.  The
    operating system is a handler over an explicit [world], driven by a
    [machine] that fixes what the environment answers. *)

From Stdlib Require Import String Ascii ZArith Lia Bool PeanoNat List.
From ITree Require Import ITree.
Import ListNotations ITreeNotations.
Local Open Scope list_scope.
Local Open Scope itree_scope.

(** ** Platform constants

    Values of the Windows SDK headers ([windef.h], [winbase.h],
    [winuser.h], [winerror.h]) that the source includes through
    [<windows.h>]. *)

Definition MAX_PATH : nat := 260.
Definition INFINITE : Z := 4294967295.
Definition CREATE_NEW_CONSOLE : Z := 16.
Definition NORMAL_PRIORITY_CLASS : Z := 32.
Definition CREATE_NO_WINDOW : Z := 134217728.
Definition MB_OK : Z := 0.
Definition MB_ICONERROR : Z := 16.
Definition IDOK : Z := 1.
Definition WAIT_OBJECT_0 : Z := 0.
Definition WAIT_TIMEOUT : Z := 258.
Definition WAIT_FAILED : Z := 4294967295.
Definition STILL_ACTIVE : Z := 259.
Definition ERROR_INVALID_HANDLE : Z := 6.
Definition ERROR_INSUFFICIENT_BUFFER : Z := 122.
Definition NULL : Z := 0.
Definition DWORD_modulus : Z := 4294967296.

(** ** C strings in byte buffers *)

Module CStr.

Definition NUL : ascii := Ascii.zero.

(** A string literal of the source, as its characters. *)
Definition lit (s : string) : list ascii := list_ascii_of_string s.

(** The double quote character (code 34) of the source's format strings. *)
Definition dquote : list ascii := [ascii_of_nat 34].

(** A string literal as the object the compiler emits: its characters and
    the terminator. *)
Definition c_literal (s : string) : list ascii := lit s ++ [NUL].

(** The C string held in a buffer: the bytes before the first NUL. *)
Fixpoint cstr (b : list ascii) : list ascii :=
  match b with
  | [] => []
  | c :: b' => if Ascii.eqb c NUL then [] else c :: cstr b'
  end.

(** [b[i] = c].  A store outside the array leaves the model unchanged. *)
Fixpoint poke (b : list ascii) (i : nat) (c : ascii) : list ascii :=
  match b, i with
  | [], _ => []
  | _ :: b', O => c :: b'
  | x :: b', S i' => x :: poke b' i' c
  end.

(** Consecutive stores of [data] from the start of [b].  Data longer than
    the array runs past its end: the result is then longer than [b]. *)
Definition write (b : list ascii) (data : list ascii) : list ascii :=
  data ++ skipn (length data) b.

(** [strrchr(b, c)] for [c <> NUL]: the offset of the last [c] in the C
    string of [b], [None] for the null pointer. *)
Fixpoint strrchr_from (i : nat) (b : list ascii) (c : ascii) : option nat :=
  match b with
  | [] => None
  | x :: b' =>
      if Ascii.eqb x NUL then None
      else match strrchr_from (S i) b' c with
           | Some j => Some j
           | None => if Ascii.eqb x c then Some i else None
           end
  end.

Definition strrchr (b : list ascii) (c : ascii) : option nat :=
  strrchr_from 0 b c.

(** [snprintf(buf, n, fmt, ...)] where [s] is the fully formatted text:
    at most [n - 1] characters of [s] and a terminator are stored; the
    value returned is the length of [s]. *)
Definition snprintf (buf : list ascii) (n : nat) (s : list ascii)
  : list ascii * Z :=
  match n with
  | O => (buf, Z.of_nat (length s))
  | S n' => (write buf (firstn n' s ++ [NUL]), Z.of_nat (length s))
  end.

(** [%lu] of a DWORD: decimal digits, most significant first, no padding. *)
Definition digit (d : Z) : ascii := ascii_of_nat (48 + Z.to_nat d).

Fixpoint digits (fuel : nat) (n : Z) (acc : list ascii) : list ascii :=
  match fuel with
  | O => acc
  | S f =>
      let acc' := digit (n mod 10) :: acc in
      if (n / 10 =? 0)%Z then acc' else digits f (n / 10) acc'
  end.

Definition fmt_lu (n : Z) : list ascii := digits 10 (n mod DWORD_modulus) [].

(** Reading a decimal numeral back. *)
Definition digit_val (c : ascii) : Z := Z.of_nat (nat_of_ascii c) - 48.

Definition atoul (s : list ascii) : Z :=
  fold_left (fun v c => (10 * v + digit_val c)%Z) s 0%Z.

(** An automatic array of [n] chars: its initial contents are whatever the
    stack holds, given by [junk] per variable. *)
Definition auto_array (junk : string -> nat -> ascii) (name : string) (n : nat)
  : list ascii :=
  map (junk name) (seq 0 n).

End CStr.
Import CStr.

(** ** The Win32 interface used by the launcher *)

(** [PROCESS_INFORMATION], filled in by [CreateProcessA]. *)
Record PROCESS_INFORMATION := {
  hProcess : Z;
  hThread : Z;
  dwProcessId : Z;
  dwThreadId : Z
}.

(** [STARTUPINFOA].  The launcher only ever zero-fills it and sets [cb];
    the members that decide how the child's window is shown are kept, the
    other (reserved, geometry, standard handle) members stay zero and are
    left out. *)
Record STARTUPINFOA := {
  cb : Z;
  dwFlags : Z;
  wShowWindow : Z
}.

(** [sizeof(STARTUPINFOA)] (x64 ABI). *)
Definition sizeof_STARTUPINFOA : Z := 104.

(** [ZeroMemory(&si, sizeof(si))] and [ZeroMemory(&pi, sizeof(pi))]. *)
Definition ZeroMemory_si : STARTUPINFOA :=
  {| cb := 0; dwFlags := 0; wShowWindow := 0 |}.

Definition ZeroMemory_pi : PROCESS_INFORMATION :=
  {| hProcess := 0; hThread := 0; dwProcessId := 0; dwThreadId := 0 |}.

(** [si.cb = v]. *)
Definition set_cb (si : STARTUPINFOA) (v : Z) : STARTUPINFOA :=
  {| cb := v; dwFlags := dwFlags si; wShowWindow := wShowWindow si |}.

(** One constructor per Win32 call of the source, with the parameters in
    the order of the C prototypes.  A buffer passed by pointer is passed as
    its contents; an out-parameter is returned next to the result. *)
Variant winE : Type -> Type :=
| GetModuleFileNameA (hModule : Z) (lpFilename : list ascii) (nSize : nat)
    : winE (Z * list ascii)
| CreateProcessA (lpApplicationName : option (list ascii))
    (lpCommandLine : list ascii)
    (lpProcessAttributes lpThreadAttributes : Z)
    (bInheritHandles : bool)
    (dwCreationFlags : Z)
    (lpEnvironment : Z)
    (lpCurrentDirectory : list ascii)
    (lpStartupInfo : STARTUPINFOA)
    (lpProcessInformation : PROCESS_INFORMATION)
    : winE (bool * PROCESS_INFORMATION)
| WaitForSingleObject (hHandle : Z) (dwMilliseconds : Z) : winE Z
| GetExitCodeProcess (hProcess : Z) (lpExitCode : Z) : winE (bool * Z)
| CloseHandle (hObject : Z) : winE bool
| GetLastError : winE Z
| MessageBoxA (hWnd : Z) (lpText lpCaption : list ascii) (uType : Z) : winE Z.

(** ** The program *)

Section Program.

(** The [snprintf] the program is linked with.  The body of [main] below
    is written against it, so that what the program asks of the library
    can be told from what the library does. *)
Variable snprintf : list ascii -> nat -> list ascii -> list ascii * Z.

(** [int main(int argc, char *argv[])].  [junk] is the indeterminate
    initial content of the automatic arrays.  [si] and [pi] are declared
    without a value and first assigned by [ZeroMemory]. *)
Definition main_with (junk : string -> nat -> ascii)
  (argc : Z) (argv : list (list ascii)) : itree winE Z :=
  let exitCode := 0%Z in
  let appPath := auto_array junk "appPath" MAX_PATH in
  let batchPath := auto_array junk "batchPath" MAX_PATH in
  let cmdLine := auto_array junk "cmdLine" (MAX_PATH * 2) in
  (* Get the directory where this executable is located *)
  '(_, appPath) <- ITree.trigger (GetModuleFileNameA NULL appPath MAX_PATH) ;;
  (* Remove the executable name to get directory *)
  let lastSlash := strrchr appPath "\"%char in
  let appPath :=
    match lastSlash with
    | Some i => poke appPath i NUL
    | None => appPath
    end in
  (* Build path to update.bat in the same directory *)
  let '(batchPath, _) :=
    snprintf batchPath MAX_PATH (cstr appPath ++ lit "\update.bat") in
  (* Build command line to run the batch file *)
  let '(cmdLine, _) :=
    snprintf cmdLine (MAX_PATH * 2)
      (lit "cmd /c " ++ dquote ++ cstr batchPath ++ dquote) in
  (* Initialize STARTUPINFO *)
  let si := ZeroMemory_si in
  let si := set_cb si sizeof_STARTUPINFOA in
  let pi := ZeroMemory_pi in
  (* Try to run update.bat (optional) *)
  '(created, pi) <- ITree.trigger
    (CreateProcessA None cmdLine NULL NULL false CREATE_NO_WINDOW NULL
       appPath si pi) ;;
  exitCode <-
    (if created : bool then
       (* Wait for update.bat to complete *)
       ITree.trigger (WaitForSingleObject (hProcess pi) INFINITE) ;;
       '(_, exitCode) <- ITree.trigger
         (GetExitCodeProcess (hProcess pi) exitCode) ;;
       ITree.trigger (CloseHandle (hProcess pi)) ;;
       ITree.trigger (CloseHandle (hThread pi)) ;;
       Ret exitCode
     else Ret exitCode) ;;
  (* Now launch the main application *)
  let '(cmdLine, _) :=
    snprintf cmdLine (MAX_PATH * 2)
      (dquote ++ cstr appPath ++ lit "\SIP Toast.exe" ++ dquote) in
  (* Reinitialize STARTUPINFO for the main app *)
  let si := ZeroMemory_si in
  let si := set_cb si sizeof_STARTUPINFOA in
  let pi := ZeroMemory_pi in
  (* Launch the main application (shown normally) *)
  '(created, pi) <- ITree.trigger
    (CreateProcessA None cmdLine NULL NULL false
       (Z.lor NORMAL_PRIORITY_CLASS CREATE_NEW_CONSOLE) NULL
       appPath si pi) ;;
  if created : bool then
    (* Don't wait for the main app - let it run independently *)
    ITree.trigger (CloseHandle (hProcess pi)) ;;
    ITree.trigger (CloseHandle (hThread pi)) ;;
    Ret 0%Z
  else
    (* If main app fails to launch, show error *)
    let errorMsg := auto_array junk "errorMsg" 256 in
    err <- ITree.trigger GetLastError ;;
    let '(errorMsg, _) :=
      snprintf errorMsg 256
        (lit "Failed to launch SIP Toast.exe (Error: " ++ fmt_lu err
           ++ lit ")") in
    ITree.trigger
      (MessageBoxA NULL errorMsg (c_literal "Update Launcher Error")
         (Z.lor MB_OK MB_ICONERROR)) ;;
    Ret 1%Z.

End Program.

(** The program as built: [main] linked with the [snprintf] of the C
    library. *)
Definition main (junk : string -> nat -> ascii)
  (argc : Z) (argv : list (list ascii)) : itree winE Z :=
  main_with CStr.snprintf junk argc argv.

(** ** The operating system *)

(** What the environment decides when asked to start a process. *)
Variant spawn_result :=
| Refused (err : Z)                (* the last-error code of the failure *)
| Started (lifetime : option nat)  (* run time; [None]: never terminates *).

(** The environment of one run of the launcher. *)
Record machine := {
  (* full path of the launcher's own image *)
  module_file_name : list ascii;
  (* [spawn now command_line flags directory] *)
  spawn : nat -> list ascii -> Z -> list ascii -> spawn_result;
  (* exit code of the n-th process started *)
  exit_code : nat -> Z;
  (* last-error value of the thread when [main] is entered *)
  initial_error : Z
}.

Record process := {
  p_cmdline : list ascii;
  p_flags : Z;
  p_cwd : list ascii;
  p_startup : STARTUPINFOA;
  p_born : nat;
  p_dies : option nat;
  p_code : Z;
  (* the handles [CreateProcessA] gave to the creator *)
  p_hProcess : Z;
  p_hThread : Z
}.

(** A call as the system sees it: strings decoded from the buffers. *)
Variant call :=
| CallGetModuleFileNameA (hModule : Z) (nSize : nat)
| CallCreateProcessA (appName : option (list ascii)) (cmdline : list ascii)
    (inherit : bool) (flags : Z) (cwd : list ascii) (si : STARTUPINFOA)
| CallWaitForSingleObject (h : Z) (ms : Z)
| CallGetExitCodeProcess (h : Z)
| CallCloseHandle (h : Z)
| CallGetLastError
| CallMessageBoxA (hWnd : Z) (text caption : list ascii) (uType : Z).

Record dialog := {
  d_text : list ascii;
  d_caption : list ascii;
  d_type : Z
}.

Record world := {
  clock : nat;                     (* time, in calls and milliseconds *)
  last_error : Z;
  procs : list process;            (* every process started, oldest first *)
  handles : list (Z * nat);        (* open handles and the process they name *)
  next_handle : Z;
  dialogs : list dialog;           (* message boxes shown, oldest first *)
  history : list (nat * call)      (* calls issued with their time, oldest first *)
}.

Definition boot (m : machine) : world :=
  {| clock := 0; last_error := initial_error m mod DWORD_modulus;
     procs := []; handles := []; next_handle := 4; dialogs := [];
     history := [] |}.

(** The call [c] is issued: it enters the history at the current time. *)
Definition issue (c : call) (w : world) : world :=
  {| clock := clock w; last_error := last_error w; procs := procs w;
     handles := handles w; next_handle := next_handle w;
     dialogs := dialogs w; history := history w ++ [(clock w, c)] |}.

(** The call returns at time [t]. *)
Definition return_at (t : nat) (w : world) : world :=
  {| clock := t; last_error := last_error w; procs := procs w;
     handles := handles w; next_handle := next_handle w;
     dialogs := dialogs w; history := history w |}.

Definition tick (w : world) : world := return_at (S (clock w)) w.

Definition with_last_error (e : Z) (w : world) : world :=
  {| clock := clock w; last_error := e; procs := procs w;
     handles := handles w; next_handle := next_handle w;
     dialogs := dialogs w; history := history w |}.

(** [SetLastError(e)]: the value is a DWORD. *)
Definition set_last_error (e : Z) (w : world) : world :=
  with_last_error (e mod DWORD_modulus) w.

Definition set_handles (hs : list (Z * nat)) (w : world) : world :=
  {| clock := clock w; last_error := last_error w; procs := procs w;
     handles := hs; next_handle := next_handle w;
     dialogs := dialogs w; history := history w |}.

Definition add_process (p : process) (w : world) : world :=
  {| clock := clock w; last_error := last_error w;
     procs := procs w ++ [p];
     handles := handles w ++ [(next_handle w, length (procs w));
                              ((next_handle w + 4)%Z, length (procs w))];
     next_handle := (next_handle w + 8)%Z;
     dialogs := dialogs w; history := history w |}.

Definition add_dialog (d : dialog) (w : world) : world :=
  {| clock := clock w; last_error := last_error w; procs := procs w;
     handles := handles w; next_handle := next_handle w;
     dialogs := dialogs w ++ [d]; history := history w |}.

Fixpoint handle_lookup (h : Z) (hs : list (Z * nat)) : option nat :=
  match hs with
  | [] => None
  | (h', pid) :: hs' => if (h =? h')%Z then Some pid else handle_lookup h hs'
  end.

Fixpoint handle_remove (h : Z) (hs : list (Z * nat)) : list (Z * nat) :=
  match hs with
  | [] => []
  | (h', pid) :: hs' =>
      if (h =? h')%Z then hs' else (h', pid) :: handle_remove h hs'
  end.

(** The process an open handle names. *)
Definition process_of (h : Z) (w : world) : option process :=
  match handle_lookup h (handles w) with
  | Some pid => nth_error (procs w) pid
  | None => None
  end.

(** Has the process terminated by time [t]? *)
Definition dead_by (t : nat) (p : process) : bool :=
  match p_dies p with
  | Some d => d <=? t
  | None => false
  end.

(** A call either returns a value in a new world, or never returns. *)
Variant reply (X : Type) :=
| Returns (x : X) (w : world)
| Blocks (w : world).
Arguments Returns {X} x w.
Arguments Blocks {X} w.

(** The calls.  [GetModuleFileNameA] does not fail; a path that does not
    fit is cut to [nSize - 1] characters and terminated, as Windows does
    since Vista.  [CreateProcessA] asks the machine.  A wait returns when
    the process has terminated or the time-out has passed, and never if
    neither happens.  [MessageBoxA] returns once the user has dismissed
    the dialog, which the user is taken to do. *)
Definition os_call (m : machine) {X} (e : winE X) (w : world) : reply X :=
  match e in winE X return reply X with
  | GetModuleFileNameA hModule lpFilename nSize =>
      let w := issue (CallGetModuleFileNameA hModule nSize) w in
      let path := cstr (module_file_name m) in
      let fits := length path <? nSize in
      let err := if fits then last_error w else ERROR_INSUFFICIENT_BUFFER in
      match nSize with
      | O => Returns (0%Z, lpFilename) (tick (with_last_error err w))
      | S n' =>
          Returns (Z.of_nat (if fits then length path else nSize),
                   write lpFilename (firstn n' path ++ [NUL]))
            (tick (with_last_error err w))
      end
  | CreateProcessA app cmdLine _ _ inherit flags _ dir si pi =>
      let cmd := cstr cmdLine in
      let cwd := cstr dir in
      let w := issue (CallCreateProcessA app cmd inherit flags cwd si) w in
      match spawn m (clock w) cmd flags cwd with
      | Refused err => Returns (false, pi) (tick (set_last_error err w))
      | Started lifetime =>
          let pid := length (procs w) in
          let p := {| p_cmdline := cmd; p_flags := flags; p_cwd := cwd;
                      p_startup := si; p_born := clock w;
                      p_dies := option_map (Nat.add (clock w)) lifetime;
                      p_code := exit_code m pid mod DWORD_modulus;
                      p_hProcess := next_handle w;
                      p_hThread := (next_handle w + 4)%Z |} in
          Returns (true,
                   {| hProcess := next_handle w;
                      hThread := (next_handle w + 4)%Z;
                      dwProcessId := Z.of_nat pid;
                      dwThreadId := Z.of_nat pid |})
            (tick (add_process p w))
      end
  | WaitForSingleObject h ms =>
      let w := issue (CallWaitForSingleObject h ms) w in
      match process_of h w with
      | None => Returns WAIT_FAILED (tick (set_last_error ERROR_INVALID_HANDLE w))
      | Some p =>
          match p_dies p with
          | Some d =>
              if (ms =? INFINITE)%Z
              then Returns WAIT_OBJECT_0 (return_at (S (Nat.max (clock w) d)) w)
              else if d <=? clock w + Z.to_nat ms
              then Returns WAIT_OBJECT_0 (return_at (S (Nat.max (clock w) d)) w)
              else Returns WAIT_TIMEOUT
                     (return_at (S (clock w + Z.to_nat ms)) w)
          | None =>
              if (ms =? INFINITE)%Z then Blocks w
              else Returns WAIT_TIMEOUT (return_at (S (clock w + Z.to_nat ms)) w)
          end
      end
  | GetExitCodeProcess h old =>
      let w := issue (CallGetExitCodeProcess h) w in
      match process_of h w with
      | None => Returns (false, old) (tick (set_last_error ERROR_INVALID_HANDLE w))
      | Some p =>
          Returns (true, if dead_by (clock w) p then p_code p else STILL_ACTIVE)
            (tick w)
      end
  | CloseHandle h =>
      let w := issue (CallCloseHandle h) w in
      match handle_lookup h (handles w) with
      | None => Returns false (tick (set_last_error ERROR_INVALID_HANDLE w))
      | Some _ => Returns true (tick (set_handles (handle_remove h (handles w)) w))
      end
  | GetLastError =>
      let w := issue CallGetLastError w in
      Returns (last_error w) (tick w)
  | MessageBoxA hWnd text caption uType =>
      let w := issue (CallMessageBoxA hWnd (cstr text) (cstr caption) uType) w in
      Returns IDOK
        (tick (add_dialog {| d_text := cstr text; d_caption := cstr caption;
                             d_type := uType |} w))
  end.

(** ** Running the launcher on a machine *)

Variant outcome :=
| Exited (code : Z) (w : world)   (* [main] returned [code] *)
| Blocked (w : world)             (* stuck in a call that never returns *)
| OutOfFuel (w : world).

Definition final (o : outcome) : world :=
  match o with
  | Exited _ w | Blocked w | OutOfFuel w => w
  end.

Fixpoint run (m : machine) (fuel : nat) (t : itree winE Z) (w : world)
  : outcome :=
  match fuel with
  | O => OutOfFuel w
  | S fuel' =>
      match observe t with
      | RetF r => Exited r w
      | TauF t' => run m fuel' t' w
      | VisF e k =>
          match os_call m e w with
          | Returns x w' => run m fuel' (k x) w'
          | Blocks w' => Blocked w'
          end
      end
  end.

(** The calls of a run as the program issues them, buffers included. *)
Fixpoint issued (m : machine) (fuel : nat) (t : itree winE Z) (w : world)
  : list {X : Type & winE X} :=
  match fuel with
  | O => []
  | S fuel' =>
      match observe t with
      | RetF _ => []
      | TauF t' => issued m fuel' t' w
      | VisF e k =>
          existT winE _ e ::
          match os_call m e w with
          | Returns x w' => issued m fuel' (k x) w'
          | Blocks _ => []
          end
      end
  end.

(** The launcher started on machine [m]. *)
Definition launcher (m : machine) (junk : string -> nat -> ascii)
  (argc : Z) (argv : list (list ascii)) (fuel : nat) : outcome :=
  run m fuel (main junk argc argv) (boot m).

(** ** What the buffers hold

    Closed forms, as strings, of the C strings the program builds.  Each
    is the content of one buffer after the statement named; the lemmas of
    [BufferFacts] below relate them to the buffers. *)

(** [appPath] after [GetModuleFileNameA(NULL, appPath, MAX_PATH)]. *)
Definition exe_path (m : machine) : list ascii :=
  firstn (MAX_PATH - 1) (cstr (module_file_name m)).

(** A path cut at its last backslash, unchanged when it has none. *)
Definition dirname (p : list ascii) : list ascii :=
  match strrchr p "\"%char with
  | Some i => firstn i p
  | None => p
  end.

(** [appPath] after [*lastSlash = 0]. *)
Definition install_dir (m : machine) : list ascii := dirname (exe_path m).

(** [batchPath] after the first [snprintf]. *)
Definition batch_path (m : machine) : list ascii :=
  firstn (MAX_PATH - 1) (install_dir m ++ lit "\update.bat").

(** [cmdLine] after the second [snprintf]. *)
Definition update_cmdline (m : machine) : list ascii :=
  firstn (MAX_PATH * 2 - 1) (lit "cmd /c " ++ dquote ++ batch_path m ++ dquote).

(** [cmdLine] after the third [snprintf]. *)
Definition main_cmdline (m : machine) : list ascii :=
  firstn (MAX_PATH * 2 - 1)
    (dquote ++ install_dir m ++ lit "\SIP Toast.exe" ++ dquote).

(** [errorMsg] after the fourth [snprintf]. *)
Definition error_text (err : Z) : list ascii :=
  firstn 255
    (lit "Failed to launch SIP Toast.exe (Error: " ++ fmt_lu err ++ lit ")").

(** [si] as both [CreateProcessA] calls receive it. *)
Definition startup : STARTUPINFOA := set_cb ZeroMemory_si sizeof_STARTUPINFOA.

Definition nul_free (s : list ascii) : Prop := ~ In NUL s.

(** A NUL-free string, decided. *)
Definition nul_freeb (s : list ascii) : bool :=
  forallb (fun c => negb (Ascii.eqb c NUL)) s.

(** ** Vocabulary of the properties *)

(** [w'] continues [w]: it has the calls and processes of [w], in the same
    order, and possibly more. *)
Definition extends (w w' : world) : Prop :=
  (exists h, history w' = history w ++ h) /\
  (exists ps, procs w' = procs w ++ ps).

(** The run has come to its end: [main] returned, or it is stuck for good. *)
Definition ended (o : outcome) : Prop :=
  match o with
  | Exited _ _ | Blocked _ => True
  | OutOfFuel _ => False
  end.

(** The update step and the main application are told apart by the
    creation flags the launcher passes. *)
Definition main_app_flags : Z := Z.lor NORMAL_PRIORITY_CLASS CREATE_NEW_CONSOLE.

Definition is_create_process (c : call) : bool :=
  match c with
  | CallCreateProcessA _ _ _ _ _ _ => true
  | _ => false
  end.

Definition is_main_app_call (c : call) : bool :=
  match c with
  | CallCreateProcessA _ _ _ fl _ _ => (fl =? main_app_flags)%Z
  | _ => false
  end.

Definition is_dialog_call (c : call) : bool :=
  match c with
  | CallMessageBoxA _ _ _ _ => true
  | _ => false
  end.

Definition is_update_call (c : call) : bool :=
  match c with
  | CallCreateProcessA _ _ _ fl _ _ => (fl =? CREATE_NO_WINDOW)%Z
  | _ => false
  end.

Definition is_wait_call (c : call) : bool :=
  match c with
  | CallWaitForSingleObject _ _ => true
  | _ => false
  end.

(** The handles closed by the calls of a history, in the order of the
    calls. *)
Definition closed_handles (w : world) : list Z :=
  flat_map (fun e => match snd e with
                     | CallCloseHandle h => [h]
                     | _ => []
                     end) (history w).

(** The handles the launcher has received, in the order it received
    them. *)
Definition received_handles (w : world) : list Z :=
  flat_map (fun p => [p_hProcess p; p_hThread p]) (procs w).

(** How many calls of a history are of a kind. *)
Definition count_calls (kind : call -> bool) (w : world) : nat :=
  length (filter (fun e => kind (snd e)) (history w)).

Definition is_update_process (p : process) : bool :=
  (p_flags p =? CREATE_NO_WINDOW)%Z.

Definition is_main_process (p : process) : bool :=
  (p_flags p =? main_app_flags)%Z.

(** The main application was started: one of the processes is it. *)
Definition main_app_started (w : world) : bool :=
  existsb is_main_process (procs w).

(** The arrays handed to the system have the sizes they were declared
    with: [appPath[MAX_PATH]], [cmdLine[MAX_PATH * 2]], [errorMsg[256]]. *)
Definition declared_sizes (c : {X : Type & winE X}) : Prop :=
  match projT2 c with
  | GetModuleFileNameA _ lpFilename nSize =>
      length lpFilename = MAX_PATH /\ nSize = MAX_PATH
  | CreateProcessA _ lpCommandLine _ _ _ _ _ lpCurrentDirectory _ _ =>
      length lpCommandLine = MAX_PATH * 2 /\
      length lpCurrentDirectory = MAX_PATH
  | MessageBoxA _ lpText _ _ => length lpText = 256
  | _ => True
  end.

(** A call [snprintf(buf, n, fmt, ...)] with formatted text [s] as the
    source writes its four: the size passed is the size of the array,
    which is [MAX_PATH] for the path of the script, [MAX_PATH * 2] for a
    command line and 256 for the message. *)
Definition bounded_call (buf : list ascii) (n : nat) (s : list ascii) : Prop :=
  n = length buf /\
  ((n = MAX_PATH /\ exists d, s = d ++ lit "\update.bat") \/
   (n = MAX_PATH * 2 /\
    ((exists p, s = lit "cmd /c " ++ dquote ++ p ++ dquote) \/
     (exists d, s = dquote ++ d ++ lit "\SIP Toast.exe" ++ dquote))) \/
   (n = 256 /\
    exists err,
      s = lit "Failed to launch SIP Toast.exe (Error: " ++ fmt_lu err
            ++ lit ")")).

(** A library function that is [snprintf] on the calls [P] and anything
    elsewhere. *)
Definition snprintf_on (P : list ascii -> nat -> list ascii -> Prop)
  (f : list ascii -> nat -> list ascii -> list ascii * Z) : Prop :=
  forall buf n s, P buf n s -> f buf n s = snprintf buf n s.

(** The same machine with other exit codes for the processes it runs. *)
Definition with_exit_code (m : machine) (codes : nat -> Z) : machine :=
  {| module_file_name := module_file_name m; spawn := spawn m;
     exit_code := codes; initial_error := initial_error m |}.

(** A world without the exit codes of its processes. *)
Definition forget_code (p : process) : process :=
  {| p_cmdline := p_cmdline p; p_flags := p_flags p; p_cwd := p_cwd p;
     p_startup := p_startup p; p_born := p_born p; p_dies := p_dies p;
     p_code := 0; p_hProcess := p_hProcess p; p_hThread := p_hThread p |}.

Definition forget_codes (w : world) : world :=
  {| clock := clock w; last_error := last_error w;
     procs := map forget_code (procs w); handles := handles w;
     next_handle := next_handle w; dialogs := dialogs w;
     history := history w |}.

Definition forget_exit_codes (o : outcome) : outcome :=
  match o with
  | Exited c w => Exited c (forget_codes w)
  | Blocked w => Blocked (forget_codes w)
  | OutOfFuel w => OutOfFuel (forget_codes w)
  end.

(** ** Machines to run the launcher on *)

Module Examples.

(** A machine whose launcher image is at [path] and that answers [upd] to
    the start of the update step and [app] to the start of the main
    application. *)
Definition machine_of (path : list ascii) (upd app : spawn_result) : machine :=
  {| module_file_name := path;
     spawn := fun _ _ flags _ =>
                if (flags =? CREATE_NO_WINDOW)%Z then upd else app;
     exit_code := fun _ => 3%Z;
     initial_error := 0 |}.

Definition tool_path : list ascii := lit "C:\Apps\Tool\update.exe".

(** A directory of 253 characters under which the launcher's path still
    fits [MAX_PATH]. *)
Definition long_path : list ascii :=
  lit "C:\" ++ repeat "a"%char 250 ++ lit "\u.exe".

(** Stack contents. *)
Definition junk_x (_ : string) (_ : nat) : ascii := "x"%char.

End Examples.

(** ** The behaviour of the launcher, call by call

    [behaviour m] lists what a complete run on machine [m] does: the
    calls with their times, the processes, the handles and the dialogs.
    [launcher_behaviour] below proves that the program does exactly
    this. *)

Definition call_update (m : machine) : call :=
  CallCreateProcessA None (update_cmdline m) false CREATE_NO_WINDOW
    (install_dir m) startup.

Definition call_main (m : machine) : call :=
  CallCreateProcessA None (main_cmdline m) false
    main_app_flags (install_dir m) startup.

Definition update_process (m : machine) (lifetime : option nat) : process :=
  {| p_cmdline := update_cmdline m; p_flags := CREATE_NO_WINDOW;
     p_cwd := install_dir m; p_startup := startup; p_born := 1;
     p_dies := option_map (Nat.add 1) lifetime;
     p_code := exit_code m 0 mod DWORD_modulus;
     p_hProcess := 4; p_hThread := 8 |}.

Definition main_process (m : machine) (t pid : nat) (lifetime : option nat)
  (nh : Z) : process :=
  {| p_cmdline := main_cmdline m;
     p_flags := main_app_flags;
     p_cwd := install_dir m; p_startup := startup; p_born := t;
     p_dies := option_map (Nat.add t) lifetime;
     p_code := exit_code m pid mod DWORD_modulus;
     p_hProcess := nh; p_hThread := (nh + 4)%Z |}.

Definition error_dialog (err : Z) : dialog :=
  {| d_text := error_text err; d_caption := lit "Update Launcher Error";
     d_type := Z.lor MB_OK MB_ICONERROR |}.

(** The last-error value once [GetModuleFileNameA] has returned. *)
Definition error_after_resolve (m : machine) : Z :=
  if length (cstr (module_file_name m)) <? MAX_PATH
  then initial_error m mod DWORD_modulus
  else ERROR_INSUFFICIENT_BUFFER.

(** From the second [CreateProcessA] on: it is issued at time [t], with
    last-error value [e], processes [ps], next free handle [nh] and the
    calls [h] behind it. *)
Definition behaviour_main_app (m : machine) (t : nat) (e : Z)
  (ps : list process) (nh : Z) (h : list (nat * call)) : outcome :=
  match spawn m t (main_cmdline m)
          main_app_flags (install_dir m) with
  | Started lifetime =>
      Exited 0
        {| clock := t + 3; last_error := e;
           procs := ps ++ [main_process m t (length ps) lifetime nh];
           handles := []; next_handle := (nh + 8)%Z; dialogs := [];
           history := h ++ [(t, call_main m);
                            (t + 1, CallCloseHandle nh);
                            (t + 2, CallCloseHandle (nh + 4)%Z)] |}
  | Refused err =>
      Exited 1
        {| clock := t + 3; last_error := err mod DWORD_modulus;
           procs := ps; handles := []; next_handle := nh;
           dialogs := [error_dialog (err mod DWORD_modulus)];
           history := h ++ [(t, call_main m);
                            (t + 1, CallGetLastError);
                            (t + 2, CallMessageBoxA NULL
                                      (error_text (err mod DWORD_modulus))
                                      (lit "Update Launcher Error")
                                      (Z.lor MB_OK MB_ICONERROR))] |}
  end.

Definition behaviour (m : machine) : outcome :=
  let h := [(0, CallGetModuleFileNameA NULL MAX_PATH); (1, call_update m)] in
  match spawn m 1 (update_cmdline m) CREATE_NO_WINDOW (install_dir m) with
  | Refused err =>
      behaviour_main_app m 2 (err mod DWORD_modulus) [] 4 h
  | Started None =>
      Blocked
        {| clock := 2; last_error := error_after_resolve m;
           procs := [update_process m None];
           handles := [(4%Z, 0); (8%Z, 0)]; next_handle := 12;
           dialogs := [];
           history := h ++ [(2, CallWaitForSingleObject 4 INFINITE)] |}
  | Started (Some l) =>
      let woke := S (Nat.max 2 (1 + l)) in
      behaviour_main_app m (woke + 3) (error_after_resolve m)
        [update_process m (Some l)] 12
        (h ++ [(2, CallWaitForSingleObject 4 INFINITE);
               (woke, CallGetExitCodeProcess 4);
               (woke + 1, CallCloseHandle 4);
               (woke + 2, CallCloseHandle 8)])
  end.

(** ** Facts about C strings *)

Module CStrFacts.

Lemma nul_free_nil : nul_free [].
Proof. intros []. Qed.

Lemma nul_free_cons c s : c <> NUL -> nul_free s -> nul_free (c :: s).
Proof. intros Hc Hs [H | H]; [congruence | exact (Hs H)]. Qed.

Lemma nul_free_cons_inv c s : nul_free (c :: s) -> c <> NUL /\ nul_free s.
Proof.
  intros H; split.
  - intros ->. apply H. now left.
  - intros Hs. apply H. now right.
Qed.

Lemma nul_free_app s t : nul_free s -> nul_free t -> nul_free (s ++ t).
Proof. unfold nul_free. intros Hs Ht H. apply in_app_or in H. tauto. Qed.

Lemma nul_free_app_inv s t : nul_free (s ++ t) -> nul_free s /\ nul_free t.
Proof. unfold nul_free. intros H; split; intros H'; apply H, in_or_app; tauto. Qed.

Lemma nul_free_firstn n s : nul_free s -> nul_free (firstn n s).
Proof.
  intros Hs H. apply Hs.
  rewrite <- (firstn_skipn n s). apply in_or_app. now left.
Qed.

Lemma nul_free_skipn n s : nul_free s -> nul_free (skipn n s).
Proof.
  intros Hs H. apply Hs.
  rewrite <- (firstn_skipn n s). apply in_or_app. now right.
Qed.

Lemma eqb_NUL_false c : c <> NUL -> Ascii.eqb c NUL = false.
Proof. intros H. now apply Ascii.eqb_neq. Qed.

Lemma cstr_nul_free b : nul_free (cstr b).
Proof.
  induction b as [|c b IH]; simpl.
  - apply nul_free_nil.
  - destruct (Ascii.eqb_spec c NUL) as [->|Hc].
    + apply nul_free_nil.
    + now apply nul_free_cons.
Qed.

(** A C string ends at the first terminator, whatever follows it. *)
Lemma cstr_terminated s r : nul_free s -> cstr (s ++ NUL :: r) = s.
Proof.
  induction s as [|c s IH]; simpl; intros H.
  - reflexivity.
  - apply nul_free_cons_inv in H as [Hc Hs].
    rewrite (eqb_NUL_false _ Hc). now rewrite IH.
Qed.

Lemma cstr_id s : nul_free s -> cstr s = s.
Proof.
  induction s as [|c s IH]; simpl; intros H.
  - reflexivity.
  - apply nul_free_cons_inv in H as [Hc Hs].
    rewrite (eqb_NUL_false _ Hc). now rewrite IH.
Qed.

Lemma cstr_length_le b : length (cstr b) <= length b.
Proof.
  induction b as [|c b IH]; simpl; [lia|].
  destruct (Ascii.eqb c NUL); simpl; lia.
Qed.

Lemma write_terminated b s :
  write b (s ++ [NUL]) = s ++ NUL :: skipn (S (length s)) b.
Proof.
  unfold write. rewrite <- app_assoc, length_app. simpl.
  now rewrite Nat.add_1_r.
Qed.

Lemma cstr_write b s : nul_free s -> cstr (write b (s ++ [NUL])) = s.
Proof. intros H. rewrite write_terminated. now apply cstr_terminated. Qed.

(** Storing within the array keeps its size; storing more grows it. *)
Lemma write_length b data :
  length (write b data) = Nat.max (length data) (length b).
Proof. unfold write. rewrite length_app, length_skipn. lia. Qed.

Lemma write_in_bounds b data :
  length data <= length b -> length (write b data) = length b.
Proof. intros H. rewrite write_length. lia. Qed.

Lemma write_frame b data i :
  length data <= i -> nth_error (write b data) i = nth_error b i.
Proof.
  intros H. unfold write. rewrite nth_error_app2 by exact H.
  rewrite nth_error_skipn. f_equal. lia.
Qed.

Lemma poke_length b i c : length (poke b i c) = length b.
Proof.
  revert i; induction b as [|x b IH]; intros [|i]; simpl; auto.
Qed.

Lemma poke_app b r i c :
  i < length b -> poke (b ++ r) i c = firstn i b ++ c :: skipn (S i) b ++ r.
Proof.
  revert i; induction b as [|x b IH]; intros i Hi; simpl in Hi; [lia|].
  destruct i as [|i]; simpl.
  - reflexivity.
  - rewrite IH by lia. reflexivity.
Qed.

(** [*p = 0] inside a C string cuts the string at [p]. *)
Lemma cstr_poke_NUL s r i :
  nul_free s -> i < length s ->
  cstr (poke (s ++ NUL :: r) i NUL) = firstn i s.
Proof.
  intros Hs Hi. rewrite poke_app by exact Hi.
  apply cstr_terminated. now apply nul_free_firstn.
Qed.

Lemma auto_array_length junk name n : length (auto_array junk name n) = n.
Proof. unfold auto_array. now rewrite length_map, length_seq. Qed.

(** *** [strrchr] *)

Lemma strrchr_from_terminated i s r c :
  nul_free s -> strrchr_from i (s ++ NUL :: r) c = strrchr_from i s c.
Proof.
  revert i; induction s as [|x s IH]; intros i H; simpl.
  - reflexivity.
  - apply nul_free_cons_inv in H as [Hx Hs].
    rewrite (eqb_NUL_false _ Hx), IH by exact Hs. reflexivity.
Qed.

Lemma strrchr_from_None i s c :
  nul_free s -> strrchr_from i s c = None -> ~ In c s.
Proof.
  revert i; induction s as [|x s IH]; intros i H; simpl.
  - intros _ [].
  - apply nul_free_cons_inv in H as [Hx Hs].
    rewrite (eqb_NUL_false _ Hx).
    destruct (strrchr_from (S i) s c) eqn:E; [discriminate|].
    destruct (Ascii.eqb_spec x c) as [->|Hxc]; [discriminate|].
    intros _ [Hin | Hin]; [congruence | exact (IH _ Hs E Hin)].
Qed.

Lemma strrchr_from_Some i s c j :
  nul_free s -> strrchr_from i s c = Some j ->
  exists d f, s = d ++ c :: f /\ ~ In c f /\ j = i + length d.
Proof.
  revert i; induction s as [|x s IH]; intros i H; simpl.
  - discriminate.
  - apply nul_free_cons_inv in H as [Hx Hs].
    rewrite (eqb_NUL_false _ Hx).
    destruct (strrchr_from (S i) s c) as [j'|] eqn:E.
    + intros [= <-]. destruct (IH _ Hs E) as (d & f & -> & Hf & ->).
      exists (x :: d), f. simpl. repeat split; [exact Hf | lia].
    + destruct (Ascii.eqb_spec x c) as [->|Hxc]; [|discriminate].
      intros [= <-]. exists [], s. simpl.
      repeat split; [exact (strrchr_from_None _ _ _ Hs E) | lia].
Qed.

Lemma strrchr_from_last i d f c :
  nul_free (d ++ c :: f) -> ~ In c f ->
  strrchr_from i (d ++ c :: f) c = Some (i + length d).
Proof.
  revert i; induction d as [|x d IH]; intros i H Hf; simpl in *.
  - apply nul_free_cons_inv in H as [Hc Hs].
    rewrite (eqb_NUL_false _ Hc).
    destruct (strrchr_from (S i) f c) as [j|] eqn:E.
    + destruct (strrchr_from_Some _ _ _ _ Hs E) as (d' & f' & -> & _ & _).
      exfalso. apply Hf, in_or_app. right. now left.
    + rewrite Ascii.eqb_refl. f_equal. lia.
  - apply nul_free_cons_inv in H as [Hx Hs].
    rewrite (eqb_NUL_false _ Hx), (IH (S i) Hs Hf). f_equal. lia.
Qed.

Lemma strrchr_from_absent i s c :
  nul_free s -> ~ In c s -> strrchr_from i s c = None.
Proof.
  intros Hs Hc. destruct (strrchr_from i s c) as [j|] eqn:E; [|reflexivity].
  destruct (strrchr_from_Some _ _ _ _ Hs E) as (d & f & -> & _ & _).
  exfalso. apply Hc, in_or_app. right. now left.
Qed.

(** *** [dirname] *)

Lemma dirname_no_separator p :
  nul_free p -> ~ In "\"%char p -> dirname p = p.
Proof.
  intros Hp Hno. unfold dirname, strrchr.
  destruct (strrchr_from 0 p "\"%char) as [j|] eqn:E; [|reflexivity].
  destruct (strrchr_from_Some _ _ _ _ Hp E) as (d & f & -> & _ & _).
  exfalso. apply Hno, in_or_app. right. now left.
Qed.

Lemma dirname_split d f :
  nul_free (d ++ "\"%char :: f) -> ~ In "\"%char f ->
  dirname (d ++ "\"%char :: f) = d.
Proof.
  intros Hp Hf. unfold dirname, strrchr.
  rewrite (strrchr_from_last 0 _ _ _ Hp Hf). simpl.
  rewrite firstn_app, firstn_all, Nat.sub_diag. simpl. apply app_nil_r.
Qed.

Lemma dirname_prefix p : exists f, p = dirname p ++ f.
Proof.
  unfold dirname. destruct (strrchr p "\"%char) as [i|].
  - exists (skipn i p). symmetry. apply firstn_skipn.
  - exists []. symmetry. apply app_nil_r.
Qed.

Lemma dirname_length p : length (dirname p) <= length p.
Proof.
  destruct (dirname_prefix p) as [f E]. rewrite E at 2.
  rewrite length_app. lia.
Qed.

Lemma dirname_nul_free p : nul_free p -> nul_free (dirname p).
Proof.
  intros H. unfold dirname. destruct (strrchr p "\"%char); [|exact H].
  now apply nul_free_firstn.
Qed.

(** The three statements [GetModuleFileNameA]; [strrchr]; [*lastSlash = 0]
    on a buffer that received the NUL-free string [p]. *)
Lemma cstr_cut_at_last_separator b p :
  nul_free p ->
  cstr match strrchr (write b (p ++ [NUL])) "\"%char with
       | Some i => poke (write b (p ++ [NUL])) i NUL
       | None => write b (p ++ [NUL])
       end = dirname p.
Proof.
  intros Hp. rewrite write_terminated. unfold dirname, strrchr.
  rewrite strrchr_from_terminated by exact Hp.
  destruct (strrchr_from 0 p "\"%char) as [i|] eqn:E.
  - destruct (strrchr_from_Some _ _ _ _ Hp E) as (d & f & Ep & _ & ->).
    apply cstr_poke_NUL; [exact Hp|].
    rewrite Ep, length_app. simpl. lia.
  - now apply cstr_terminated.
Qed.

(** *** [%lu] *)

Lemma digit_val_digit d : (0 <= d < 10)%Z -> digit_val (digit d) = d.
Proof.
  intros H. unfold digit_val, digit.
  rewrite nat_ascii_embedding by lia. lia.
Qed.

Lemma digit_not_NUL d : (0 <= d < 10)%Z -> digit d <> NUL.
Proof.
  intros H E. apply (f_equal nat_of_ascii) in E. unfold digit in E.
  rewrite nat_ascii_embedding in E by lia.
  change (nat_of_ascii NUL) with 0 in E. lia.
Qed.

Lemma atoul_snoc s c : atoul (s ++ [c]) = (10 * atoul s + digit_val c)%Z.
Proof. unfold atoul. now rewrite fold_left_app. Qed.

Lemma digits_spec fuel : forall n acc,
  (0 <= n < 10 ^ Z.of_nat fuel)%Z -> fuel <> 0 ->
  exists ds, digits fuel n acc = ds ++ acc /\ atoul ds = n /\
             length ds <= fuel /\ nul_free ds.
Proof.
  induction fuel as [|fuel IH]; intros n acc Hn Hfuel; [congruence|].
  simpl digits.
  assert (Hd : (0 <= n mod 10 < 10)%Z) by (apply Z.mod_pos_bound; lia).
  destruct (Z.eqb_spec (n / 10) 0) as [E|E].
  - exists [digit (n mod 10)]. repeat split.
    + unfold atoul. simpl. rewrite digit_val_digit by exact Hd.
      pose proof (Z.div_mod n 10). lia.
    + simpl. lia.
    + apply nul_free_cons; [now apply digit_not_NUL | apply nul_free_nil].
  - assert (Hq : (0 <= n / 10 < 10 ^ Z.of_nat fuel)%Z).
    { split; [apply Z.div_pos; lia|].
      apply Z.div_lt_upper_bound; [lia|].
      rewrite Nat2Z.inj_succ, Z.pow_succ_r in Hn by lia. lia. }
    assert (Hf : fuel <> 0).
    { intros ->. simpl in Hq. lia. }
    destruct (IH (n / 10)%Z (digit (n mod 10) :: acc) Hq Hf)
      as (ds & -> & Hv & Hl & Hz).
    exists (ds ++ [digit (n mod 10)]). repeat split.
    + now rewrite <- app_assoc.
    + rewrite atoul_snoc, Hv, digit_val_digit by exact Hd.
      pose proof (Z.div_mod n 10). lia.
    + rewrite length_app. simpl. lia.
    + apply nul_free_app; [exact Hz|].
      apply nul_free_cons; [now apply digit_not_NUL | apply nul_free_nil].
Qed.

Lemma fmt_lu_spec n :
  atoul (fmt_lu n) = (n mod DWORD_modulus)%Z /\
  length (fmt_lu n) <= 10 /\ nul_free (fmt_lu n).
Proof.
  unfold fmt_lu.
  assert (H : (0 <= n mod DWORD_modulus < 10 ^ Z.of_nat 10)%Z).
  { pose proof (Z.mod_pos_bound n DWORD_modulus). unfold DWORD_modulus in *.
    change (10 ^ Z.of_nat 10)%Z with 10000000000%Z. lia. }
  destruct (digits_spec 10 _ [] H) as (ds & -> & Hv & Hl & Hz);
    [discriminate|].
  rewrite app_nil_r. auto.
Qed.

End CStrFacts.

(** ** The strings of the launcher *)

Module Strings.
Import CStrFacts.

Lemma nul_freeb_sound s : nul_freeb s = true -> nul_free s.
Proof.
  unfold nul_freeb, nul_free. rewrite forallb_forall. intros H Hin.
  specialize (H _ Hin). now rewrite Ascii.eqb_refl in H.
Qed.

(** Literals and the quote have no NUL: by evaluation. *)
Ltac literal := apply nul_freeb_sound; reflexivity.

Lemma exe_path_nul_free m : nul_free (exe_path m).
Proof. apply nul_free_firstn, cstr_nul_free. Qed.

Lemma exe_path_length m : length (exe_path m) <= MAX_PATH - 1.
Proof. unfold exe_path. apply firstn_le_length. Qed.

Lemma install_dir_nul_free m : nul_free (install_dir m).
Proof. apply dirname_nul_free, exe_path_nul_free. Qed.

Lemma install_dir_length m : length (install_dir m) <= MAX_PATH - 1.
Proof.
  unfold install_dir.
  pose proof (dirname_length (exe_path m)). pose proof (exe_path_length m). lia.
Qed.

Lemma batch_format_nul_free m : nul_free (install_dir m ++ lit "\update.bat").
Proof. apply nul_free_app; [apply install_dir_nul_free | literal]. Qed.

Lemma batch_path_nul_free m : nul_free (batch_path m).
Proof. apply nul_free_firstn, batch_format_nul_free. Qed.

Lemma batch_path_length m : length (batch_path m) <= MAX_PATH - 1.
Proof. unfold batch_path. apply firstn_le_length. Qed.

Lemma update_format_nul_free m :
  nul_free (lit "cmd /c " ++ dquote ++ batch_path m ++ dquote).
Proof.
  repeat apply nul_free_app; try literal. apply batch_path_nul_free.
Qed.

Lemma main_format_nul_free m :
  nul_free (dquote ++ install_dir m ++ lit "\SIP Toast.exe" ++ dquote).
Proof.
  repeat apply nul_free_app; try literal. apply install_dir_nul_free.
Qed.

Lemma error_format_nul_free err :
  nul_free
    (lit "Failed to launch SIP Toast.exe (Error: " ++ fmt_lu err ++ lit ")").
Proof.
  repeat apply nul_free_app; try literal. apply fmt_lu_spec.
Qed.

(** The command-line buffer is wide enough for both command lines, and
    the message buffer for the message: these three are never cut. *)
Lemma update_cmdline_whole m :
  update_cmdline m = lit "cmd /c " ++ dquote ++ batch_path m ++ dquote.
Proof.
  unfold update_cmdline. apply firstn_all2.
  pose proof (batch_path_length m).
  rewrite !length_app. unfold MAX_PATH in *. simpl. lia.
Qed.

Lemma main_cmdline_whole m :
  main_cmdline m = dquote ++ install_dir m ++ lit "\SIP Toast.exe" ++ dquote.
Proof.
  unfold main_cmdline. apply firstn_all2.
  pose proof (install_dir_length m).
  rewrite !length_app. unfold MAX_PATH in *. simpl. lia.
Qed.

Lemma error_text_whole err :
  error_text err =
  lit "Failed to launch SIP Toast.exe (Error: " ++ fmt_lu err ++ lit ")".
Proof.
  unfold error_text. apply firstn_all2.
  destruct (fmt_lu_spec err) as (_ & Hl & _).
  rewrite !length_app. simpl. lia.
Qed.

(** The script path is whole when the directory leaves room for the
    eleven characters of the file name and its separator. *)
Lemma batch_path_whole m :
  length (install_dir m) <= MAX_PATH - 12 ->
  batch_path m = install_dir m ++ lit "\update.bat".
Proof.
  intros H. unfold batch_path. apply firstn_all2.
  rewrite length_app. unfold MAX_PATH in *. simpl in *. lia.
Qed.

Lemma batch_path_cut m :
  MAX_PATH - 12 < length (install_dir m) ->
  length (batch_path m) = MAX_PATH - 1 /\
  batch_path m <> install_dir m ++ lit "\update.bat".
Proof.
  intros H.
  assert (L : length (batch_path m) = MAX_PATH - 1).
  { unfold batch_path. apply firstn_length_le.
    rewrite length_app. unfold MAX_PATH in *. simpl in *. lia. }
  split; [exact L|].
  intros E. rewrite E, length_app in L. unfold MAX_PATH in *. simpl in *. lia.
Qed.

End Strings.

(** ** Running the program: one call at a time *)

Section Steps.
Variable m : machine.

Lemma run_out t w : run m 0 t w = OutOfFuel w.
Proof. reflexivity. Qed.

Lemma run_ret f r w : run m (S f) (Ret r) w = Exited r w.
Proof. reflexivity. Qed.

Lemma run_call X (e : winE X) (k : X -> itree winE Z) f w :
  run m (S f) (ITree.bind (ITree.trigger e) k) w =
  match os_call m e w with
  | Returns x w' => run m f (k x) w'
  | Blocks w' => Blocked w'
  end.
Proof. cbn. destruct (os_call m e w); [destruct f|]; reflexivity. Qed.

Lemma run_call_inner X Y (e : winE X) (k : X -> itree winE Y)
  (k' : Y -> itree winE Z) f w :
  run m (S f) (ITree.bind (ITree.bind (ITree.trigger e) k) k') w =
  match os_call m e w with
  | Returns x w' => run m f (ITree.bind (k x) k') w'
  | Blocks w' => Blocked w'
  end.
Proof. cbn. destruct (os_call m e w); [destruct f|]; reflexivity. Qed.

Lemma run_ret_inner Y (y : Y) (k' : Y -> itree winE Z) f w :
  run m f (ITree.bind (Ret y) k') w = run m f (k' y) w.
Proof. destruct f; reflexivity. Qed.

Lemma issued_ret f r w : issued m f (Ret r) w = [].
Proof. destruct f; reflexivity. Qed.

Lemma issued_call X (e : winE X) (k : X -> itree winE Z) f w :
  issued m (S f) (ITree.bind (ITree.trigger e) k) w =
  existT winE _ e ::
  match os_call m e w with
  | Returns x w' => issued m f (k x) w'
  | Blocks _ => []
  end.
Proof. cbn. destruct (os_call m e w); [destruct f|]; reflexivity. Qed.

Lemma issued_call_inner X Y (e : winE X) (k : X -> itree winE Y)
  (k' : Y -> itree winE Z) f w :
  issued m (S f) (ITree.bind (ITree.bind (ITree.trigger e) k) k') w =
  existT winE _ e ::
  match os_call m e w with
  | Returns x w' => issued m f (ITree.bind (k x) k') w'
  | Blocks _ => []
  end.
Proof. cbn. destruct (os_call m e w); [destruct f|]; reflexivity. Qed.

Lemma issued_ret_inner Y (y : Y) (k' : Y -> itree winE Z) f w :
  issued m f (ITree.bind (Ret y) k') w = issued m f (k' y) w.
Proof. destruct f; reflexivity. Qed.

End Steps.

Module Refinement.
Import CStrFacts Strings.

Lemma world_ext w w' :
  clock w = clock w' -> last_error w = last_error w' -> procs w = procs w' ->
  handles w = handles w' -> next_handle w = next_handle w' ->
  dialogs w = dialogs w' -> history w = history w' -> w = w'.
Proof. destruct w, w'; simpl; intros; subst; reflexivity. Qed.

Lemma cstr_write_firstn b n s :
  nul_free s -> cstr (write b (firstn n s ++ [NUL])) = firstn n s.
Proof. intros H. apply cstr_write. now apply nul_free_firstn. Qed.

Lemma cstr_c_literal s : nul_free (lit s) -> cstr (c_literal s) = lit s.
Proof.
  intros H. unfold c_literal. now rewrite (cstr_terminated (lit s) []).
Qed.

Create HintDb nul_free.
Lemma update_cmdline_nul_free m : nul_free (update_cmdline m).
Proof. apply nul_free_firstn, update_format_nul_free. Qed.

Lemma main_cmdline_nul_free m : nul_free (main_cmdline m).
Proof. apply nul_free_firstn, main_format_nul_free. Qed.

#[export] Hint Resolve nul_free_app nul_free_firstn cstr_nul_free
  exe_path_nul_free install_dir_nul_free batch_path_nul_free
  update_cmdline_nul_free main_cmdline_nul_free dirname_nul_free : nul_free.
#[export] Hint Extern 1 (nul_free (lit _)) => literal : nul_free.
#[export] Hint Extern 1 (nul_free dquote) => literal : nul_free.
#[export] Hint Extern 1 (nul_free (fmt_lu _)) => apply fmt_lu_spec : nul_free.

(** Reduce the program and the system, not the strings. *)
Ltac compute_call :=
  cbn -[cstr strrchr poke write firstn auto_array lit fmt_lu dquote c_literal
        run issued Z.modulo Nat.max Nat.leb Nat.ltb].

(** Replace each buffer that is read by the string it holds. *)
Ltac read_buffers :=
  rewrite ?cstr_cut_at_last_separator by auto with nul_free;
  rewrite ?cstr_write_firstn by auto 8 with nul_free;
  rewrite ?cstr_write by auto with nul_free;
  rewrite ?cstr_c_literal by auto with nul_free.



(** Name the strings. *)
Ltac name_strings m :=
  try change (firstn 259 (cstr (module_file_name m))) with (exe_path m);
  try change (dirname (exe_path m)) with (install_dir m);
  try change (firstn 259 (install_dir m ++ lit "\update.bat"))
    with (batch_path m);
  try change (firstn 519 (lit "cmd /c " ++ dquote ++ batch_path m ++ dquote))
    with (update_cmdline m);
  try change (firstn 519
                (dquote ++ install_dir m ++ lit "\SIP Toast.exe" ++ dquote))
    with (main_cmdline m).

(** Keep the world an explicit record. *)
Ltac flatten_world :=
  cbv [tick issue return_at set_last_error with_last_error set_handles
       add_process add_dialog boot];
  cbn [clock last_error procs handles next_handle dialogs history app
       length].

Ltac call m :=
  first [rewrite run_call | rewrite run_call_inner]; compute_call;
  rewrite ?Z.eqb_refl; compute_call; flatten_world;
  repeat (progress (read_buffers; name_strings m)).

Ltac same_field :=
  compute_call;
  rewrite <- ?app_assoc; cbn [app];
  repeat f_equal; try reflexivity; try lia.

Ltac same_world :=
  apply world_ext; compute_call;
  repeat match goal with H : _ = _ |- _ => rewrite H end;
  rewrite <- ?app_assoc; cbn [app];
  repeat f_equal; try reflexivity; try lia.

Lemma main_app_phase m junk f t e ps nh h w cmdLine :
  clock w = t -> last_error w = e -> procs w = ps -> handles w = [] ->
  next_handle w = nh -> dialogs w = [] -> history w = h ->
  run m (S (S (S (S f))))
    ('(created0, pi0) <- ITree.trigger
         (CreateProcessA None
            (write cmdLine (main_cmdline m ++ [NUL]))
            NULL NULL false 48 NULL
            match strrchr (write (auto_array junk "appPath" MAX_PATH)
                             (exe_path m ++ [NUL])) "\"%char with
            | Some i => poke (write (auto_array junk "appPath" MAX_PATH)
                                (exe_path m ++ [NUL])) i NUL
            | None => write (auto_array junk "appPath" MAX_PATH)
                        (exe_path m ++ [NUL])
            end startup ZeroMemory_pi) ;;
     (if created0 : bool
      then
        ITree.trigger (CloseHandle (hProcess pi0));;
        ITree.trigger (CloseHandle (hThread pi0));; Ret 0%Z
      else
        err <- ITree.trigger GetLastError;;
        ITree.trigger
          (MessageBoxA NULL
             (write (auto_array junk "errorMsg" 256)
                (firstn 255
                   (lit "Failed to launch SIP Toast.exe (Error: " ++
                    fmt_lu err ++ lit ")") ++ [NUL]))
             (c_literal "Update Launcher Error") MB_ICONERROR);;
        Ret 1%Z)) w
  = behaviour_main_app m t e ps nh h.
Proof.
  destruct w;
  cbn [clock last_error procs handles next_handle dialogs history];
  intros -> -> -> -> -> -> ->.
  unfold behaviour_main_app.
  rewrite run_call. compute_call.
  repeat (progress (read_buffers; name_strings m)).
  change 48%Z with main_app_flags.
  destruct (spawn m t (main_cmdline m) _ (install_dir m)) as [err|life].
  - call m. call m. rewrite run_ret. f_equal. same_world.
  - call m. call m. rewrite run_ret. f_equal. same_world.
Qed.

Lemma launcher_complete m junk argc argv k :
  launcher m junk argc argv (10 + k) = behaviour m.
Proof.
  unfold launcher, main, main_with. compute_call.
  call m. call m.
  unfold behaviour.
  destruct (spawn m 1 (update_cmdline m) CREATE_NO_WINDOW (install_dir m))
    as [err|[l|]].
  - rewrite run_ret_inner. compute_call. name_strings m.
    apply main_app_phase; reflexivity.
  - call m. call m. call m. call m.
    rewrite run_ret_inner. compute_call.
    apply main_app_phase; same_field.
  - call m. reflexivity.
Qed.
End Refinement.

(** ** Fuel: longer runs extend shorter ones *)

Module Fuel.

Lemma extends_refl w : extends w w.
Proof. split; exists []; now rewrite app_nil_r. Qed.

Lemma extends_trans w1 w2 w3 : extends w1 w2 -> extends w2 w3 -> extends w1 w3.
Proof.
  intros [[h1 H1] [p1 P1]] [[h2 H2] [p2 P2]]. split.
  - exists (h1 ++ h2). now rewrite H2, H1, app_assoc.
  - exists (p1 ++ p2). now rewrite P2, P1, app_assoc.
Qed.

Lemma extends_issue c w : extends w (issue c w).
Proof. split; [now exists [(clock w, c)] | exists []; now rewrite app_nil_r]. Qed.

Lemma extends_add_process p w : extends w (add_process p w).
Proof. split; [exists []; now rewrite app_nil_r | now exists [p]]. Qed.

(** The other world updates leave calls and processes alone. *)
Lemma extends_same w w' :
  history w' = history w -> procs w' = procs w -> extends w w'.
Proof. intros H P. split; exists []; now rewrite app_nil_r. Qed.

Lemma os_call_extends m X (e : winE X) w :
  match os_call m e w with
  | Returns _ w' | Blocks w' => extends w w'
  end.
Proof.
  destruct e; cbn -[Nat.ltb Nat.leb Nat.max].
  - destruct nSize;
      (eapply extends_trans; [apply extends_issue | now apply extends_same]).
  - destruct (spawn m _ _ _ _).
    + eapply extends_trans; [apply extends_issue | now apply extends_same].
    + eapply extends_trans; [apply extends_issue|].
      eapply extends_trans; [apply extends_add_process | now apply extends_same].
  - destruct (process_of _ _) as [p|].
    + destruct (p_dies p).
      * destruct (_ =? _)%Z; [|destruct (_ <=? _)];
          (eapply extends_trans; [apply extends_issue | now apply extends_same]).
      * destruct (_ =? _)%Z; [apply extends_issue|].
        eapply extends_trans; [apply extends_issue | now apply extends_same].
    + eapply extends_trans; [apply extends_issue | now apply extends_same].
  - destruct (process_of _ _);
      (eapply extends_trans; [apply extends_issue | now apply extends_same]).
  - destruct (handle_lookup _ _);
      (eapply extends_trans; [apply extends_issue | now apply extends_same]).
  - eapply extends_trans; [apply extends_issue | now apply extends_same].
  - eapply extends_trans; [apply extends_issue|]. split.
    + exists []. now rewrite app_nil_r.
    + exists []. now rewrite app_nil_r.
Qed.

Lemma run_extends m fuel : forall t w, extends w (final (run m fuel t w)).
Proof.
  induction fuel as [|fuel IH]; intros t w; simpl.
  - apply extends_refl.
  - destruct (observe t) as [r | t' | X e k]; simpl.
    + apply extends_refl.
    + apply IH.
    + pose proof (os_call_extends m X e w) as H.
      destruct (os_call m e w) as [x w'|w']; simpl.
      * eapply extends_trans; [exact H | apply IH].
      * exact H.
Qed.

(** More fuel continues the run. *)
Lemma run_more_fuel m fuel : forall fuel' t w,
  fuel <= fuel' ->
  extends (final (run m fuel t w)) (final (run m fuel' t w)).
Proof.
  induction fuel as [|fuel IH]; intros fuel' t w Hle.
  - apply run_extends.
  - destruct fuel' as [|fuel']; [lia|]. simpl.
    destruct (observe t) as [r | t' | X e k]; simpl.
    + apply extends_refl.
    + apply IH. lia.
    + destruct (os_call m e w) as [x w'|w']; simpl.
      * apply IH. lia.
      * apply extends_refl.
Qed.

(** A run that has come to its end is not changed by more fuel. *)
Lemma run_ended_stable m fuel : forall fuel' t w,
  fuel <= fuel' -> ended (run m fuel t w) ->
  run m fuel' t w = run m fuel t w.
Proof.
  induction fuel as [|fuel IH]; intros fuel' t w Hle He.
  - destruct He.
  - destruct fuel' as [|fuel']; [lia|]. simpl in *.
    destruct (observe t) as [r | t' | X e k].
    + reflexivity.
    + apply IH; [lia | exact He].
    + destruct (os_call m e w) as [x w'|w'].
      * apply IH; [lia | exact He].
      * reflexivity.
Qed.

End Fuel.

(** ** The launcher and its behaviour *)

Module LauncherFacts.
Import CStrFacts Strings Refinement Fuel.

(** Ten calls are the longest run. *)
Lemma launcher_enough_fuel m junk argc argv fuel :
  10 <= fuel -> launcher m junk argc argv fuel = behaviour m.
Proof.
  intros H. replace fuel with (10 + (fuel - 10)) by lia.
  apply launcher_complete.
Qed.

Lemma Exited_inj c w c' w' : Exited c w = Exited c' w' -> c = c' /\ w = w'.
Proof. intros [= -> ->]. now split. Qed.

Lemma behaviour_main_app_ended m t e ps nh h :
  ended (behaviour_main_app m t e ps nh h).
Proof. unfold behaviour_main_app. destruct (spawn m _ _ _ _); exact I. Qed.

Lemma behaviour_ended m : ended (behaviour m).
Proof.
  unfold behaviour. destruct (spawn m _ _ _ _) as [err|[l|]];
    try apply behaviour_main_app_ended; exact I.
Qed.

(** A run that ended, with whatever fuel, is the complete run. *)
Lemma launcher_ended m junk argc argv fuel :
  ended (launcher m junk argc argv fuel) ->
  launcher m junk argc argv fuel = behaviour m.
Proof.
  intros H. rewrite <- (launcher_enough_fuel m junk argc argv (fuel + 10)) by lia.
  symmetry. apply run_ended_stable; [lia | exact H].
Qed.

(** A run cut short by its fuel is the beginning of the complete run. *)
Lemma launcher_prefix m junk argc argv fuel :
  extends (final (launcher m junk argc argv fuel)) (final (behaviour m)).
Proof.
  rewrite <- (launcher_enough_fuel m junk argc argv (fuel + 10)) by lia.
  apply run_more_fuel. lia.
Qed.

Lemma in_history_prefix m junk argc argv fuel e :
  In e (history (final (launcher m junk argc argv fuel))) ->
  In e (history (final (behaviour m))).
Proof.
  destruct (launcher_prefix m junk argc argv fuel) as [[h Hh] _].
  rewrite Hh. intros H. apply in_or_app. now left.
Qed.

(** The first calls, when the update step starts. *)
Lemma launcher_update_started m junk argc argv lifetime :
  spawn m 1 (update_cmdline m) CREATE_NO_WINDOW (install_dir m)
    = Started lifetime ->
  launcher m junk argc argv 2 =
  OutOfFuel
    {| clock := 2; last_error := error_after_resolve m;
       procs := [update_process m lifetime];
       handles := [(4%Z, 0); (8%Z, 0)]; next_handle := 12; dialogs := [];
       history := [(0, CallGetModuleFileNameA NULL MAX_PATH);
                   (1, call_update m)] |}.
Proof.
  intros H. unfold launcher, main, main_with. compute_call.
  call m. call m. rewrite H. reflexivity.
Qed.

Lemma launcher_update_waited m junk argc argv lifetime k :
  spawn m 1 (update_cmdline m) CREATE_NO_WINDOW (install_dir m)
    = Started lifetime ->
  In (2, CallWaitForSingleObject 4 INFINITE)
    (history (final (launcher m junk argc argv (3 + k)))).
Proof.
  intros H.
  destruct (run_more_fuel m 3 (3 + k) (main junk argc argv) (boot m))
    as [[h Hh] _]; [lia|].
  unfold launcher. rewrite Hh. apply in_or_app. left. clear Hh h.
  unfold main, main_with. compute_call.
  call m. call m. rewrite H. call m.
  destruct lifetime as [l|]; rewrite ?run_out; simpl; auto 10.
Qed.

End LauncherFacts.

(** ** The buffers keep their sizes *)

Module BufferFacts.
Import CStrFacts Strings Refinement.

Lemma write_bounded_length b n s :
  length b = S n -> length (write b (firstn n s ++ [NUL])) = S n.
Proof.
  intros H. rewrite write_in_bounds; [exact H|].
  rewrite length_app, H. pose proof (firstn_le_length n s). simpl. lia.
Qed.

(** What [snprintf] does to an array at least as large as the size it is
    given. *)
Lemma snprintf_bounded buf n s :
  0 < n -> n <= length buf -> nul_free s ->
  length (fst (snprintf buf n s)) = length buf /\
  (forall i, n <= i -> nth_error (fst (snprintf buf n s)) i = nth_error buf i) /\
  nth_error (fst (snprintf buf n s)) (Nat.min (length s) (n - 1)) = Some NUL /\
  cstr (fst (snprintf buf n s)) = firstn (n - 1) s /\
  snd (snprintf buf n s) = Z.of_nat (length s).
Proof.
  intros Hn Hb Hs. destruct n as [|n]; [lia|]. cbn [snprintf fst snd].
  replace (S n - 1) with n by lia.
  assert (Hl : length (firstn n s ++ [NUL]) <= S n).
  { rewrite length_app. pose proof (firstn_le_length n s). simpl. lia. }
  repeat split.
  - apply write_in_bounds. lia.
  - intros i Hi. apply write_frame. lia.
  - rewrite write_terminated.
    replace (Nat.min (length s) n) with (length (firstn n s))
      by (rewrite length_firstn; lia).
    rewrite nth_error_app2, Nat.sub_diag by lia. reflexivity.
  - apply cstr_write. now apply nul_free_firstn.
Qed.

Ltac sizes :=
  cbn [declared_sizes projT2]; repeat split;
  repeat match goal with
    | |- context [match ?o with Some _ => _ | None => _ end] => destruct o
    end;
  rewrite ?poke_length;
  repeat apply write_bounded_length; apply auto_array_length.

(** One more call: out of fuel, or the call with its buffers and the rest
    of the run. *)
Ltac more fuel :=
  destruct fuel as [|fuel]; [constructor|];
  first [rewrite issued_call | rewrite issued_call_inner];
  constructor; [try exact I; sizes|];
  compute_call; rewrite ?Z.eqb_refl; compute_call; flatten_world.

Lemma buffers_keep_their_sizes m junk argc argv fuel :
  Forall declared_sizes (issued m fuel (main junk argc argv) (boot m)).
Proof.
  unfold main, main_with. compute_call.
  more fuel. more fuel.
  match goal with |- context [spawn m ?a ?b ?c ?d] =>
    destruct (spawn m a b c d) as [e1|[l|]] end.
  - rewrite issued_ret_inner. compute_call. more fuel.
    match goal with |- context [spawn m ?a ?b ?c ?d] =>
      destruct (spawn m a b c d) as [e2|l2] end.
    + more fuel. more fuel. rewrite issued_ret. constructor.
    + more fuel. more fuel. rewrite issued_ret. constructor.
  - more fuel. more fuel. more fuel. more fuel.
    rewrite issued_ret_inner. compute_call. more fuel.
    match goal with |- context [spawn m ?a ?b ?c ?d] =>
      destruct (spawn m a b c d) as [e2|l2] end.
    + more fuel. more fuel. rewrite issued_ret. constructor.
    + more fuel. more fuel. rewrite issued_ret. constructor.
  - more fuel. constructor.
Qed.

End BufferFacts.

(** ** The properties of the launcher *)

Import CStrFacts Strings Refinement Fuel LauncherFacts BufferFacts.

(** Split membership in an explicit history into its entries. *)
Ltac entries H :=
  cbn [final history app In] in H;
  repeat (destruct H as [H|H];
          [let Hc := fresh "Hc" in
           apply pair_equal_spec in H; destruct H as [? Hc];
           try discriminate Hc; subst|]);
  try contradiction.

(** Case analysis on what the machine answers to the start of the main
    application, in hypothesis [H]. *)
Ltac main_app_cases H :=
  unfold behaviour_main_app in H;
  match type of H with
  | context [spawn ?m ?t ?c ?f ?d] => destruct (spawn m t c f d)
  end.

(** C1.  Ordering of the two steps.  When the update step is created, the
    launcher waits on its process handle with [INFINITE]; it issues no
    further call until the update step has terminated, and none at all if
    the step never terminates; so every attempt to start the main
    application is made after the update step has terminated. *)
Theorem update_step_finishes_before_main_app m junk argc argv lifetime :
  spawn m 1 (update_cmdline m) CREATE_NO_WINDOW (install_dir m)
    = Started lifetime ->
  let update := update_process m lifetime in
  (exists w, launcher m junk argc argv 2 = OutOfFuel w /\
             procs w = [update] /\
             process_of (p_hProcess update) w = Some update) /\
  (forall fuel, 3 <= fuel ->
     In (2, CallWaitForSingleObject (p_hProcess update) INFINITE)
       (history (final (launcher m junk argc argv fuel)))) /\
  (lifetime = None ->
   forall fuel, 3 <= fuel ->
     exists w, launcher m junk argc argv fuel = Blocked w /\
               forall t c, In (t, c) (history w) ->
                           t <= 2 /\ is_main_app_call c = false) /\
  (forall fuel t c,
     In (t, c) (history (final (launcher m junk argc argv fuel))) ->
     2 < t ->
     exists died, p_dies update = Some died /\ died < t) /\
  (forall fuel t c,
     In (t, c) (history (final (launcher m junk argc argv fuel))) ->
     is_main_app_call c = true -> 2 < t).
Proof.
  intros H update. split; [|split; [|split; [|split]]].
  - eexists. split; [apply launcher_update_started; exact H|].
    split; reflexivity.
  - intros fuel Hf. replace fuel with (3 + (fuel - 3)) by lia.
    apply launcher_update_waited with (lifetime := lifetime). exact H.
  - intros -> fuel Hf.
    assert (E : launcher m junk argc argv 3 = behaviour m).
    { apply launcher_ended. unfold launcher, main, main_with. compute_call.
      call m. call m. rewrite H. call m. exact I. }
    assert (E' : launcher m junk argc argv fuel = behaviour m).
    { rewrite <- E. apply run_ended_stable; [exact Hf|].
      fold (launcher m junk argc argv 3). rewrite E. apply behaviour_ended. }
    rewrite E'. unfold behaviour. rewrite H. eexists. split; [reflexivity|].
    intros t c Hin. entries Hin; (split; [lia | reflexivity]).
  - intros fuel t c Hin Ht. apply in_history_prefix in Hin.
    unfold behaviour in Hin. rewrite H in Hin.
    destruct lifetime as [l|].
    + exists (1 + l). split; [reflexivity|].
      main_app_cases Hin; entries Hin; lia.
    + entries Hin; lia.
  - intros fuel t c Hin Hc. apply in_history_prefix in Hin.
    unfold behaviour in Hin. rewrite H in Hin.
    destruct lifetime as [l|].
    + main_app_cases Hin; entries Hin; try discriminate Hc; lia.
    + entries Hin; discriminate Hc.
Qed.

Lemma update_step_finishes_before_main_app_witness :
  let m := Examples.machine_of Examples.tool_path (Started (Some 50))
             (Started None) in
  spawn m 1 (update_cmdline m) CREATE_NO_WINDOW (install_dir m)
    = Started (Some 50) /\
  forall t c,
    In (t, c) (history (final (launcher m Examples.junk_x 1 [] 10))) ->
    is_main_app_call c = true -> 51 < t.
Proof.
  intros m. split; [reflexivity|]. intros t c Hin Hc.
  destruct (update_step_finishes_before_main_app m Examples.junk_x 1 []
              (Some 50) eq_refl) as (_ & _ & _ & Hlater & Hmain).
  destruct (Hlater 10 t c Hin (Hmain 10 t c Hin Hc)) as (died & Hd & Hlt).
  injection Hd as <-. exact Hlt.
Defined.

(** Find an entry in an explicit history. *)
Ltac find_entry := cbn [In]; repeat first [left; reflexivity | right].

(** Case analysis on the complete run [E : behaviour m = o]. *)
Ltac behaviour_cases E :=
  unfold behaviour, behaviour_main_app in E;
  repeat match type of E with
    | context [match spawn ?m ?t ?c ?f ?d with _ => _ end] =>
        let S := fresh "Spawn" in destruct (spawn m t c f d) eqn:S
    | context [match ?l with Some _ => _ | None => _ end] => destruct l
    end.

(** C2.  Exit code.  A run that returns, returns 0 with the main
    application started or 1 with it not started, the start being what the
    machine answered to the one attempt; no wait is issued after that
    attempt and [main] returns three calls later, whatever the lifetime of
    the application.  And the launcher does return unless it is stuck
    waiting for an update step that never terminates. *)
Theorem exit_code_contract m junk argc argv :
  (forall fuel code w,
     launcher m junk argc argv fuel = Exited code w ->
     (code = 0%Z /\ main_app_started w = true \/
      code = 1%Z /\ main_app_started w = false) /\
     (exists tm,
        In (tm, call_main m) (history w) /\ clock w = tm + 3 /\
        (main_app_started w = true <->
         exists lifetime,
           spawn m tm (main_cmdline m) main_app_flags (install_dir m)
             = Started lifetime) /\
        forall t h ms,
          In (t, CallWaitForSingleObject h ms) (history w) -> t < tm)) /\
  (spawn m 1 (update_cmdline m) CREATE_NO_WINDOW (install_dir m)
     <> Started None ->
   forall fuel, 10 <= fuel ->
     exists code w, launcher m junk argc argv fuel = Exited code w).
Proof.
  split.
  - intros fuel code w E.
    assert (E' : behaviour m = Exited code w).
    { rewrite <- E. symmetry. apply launcher_ended. now rewrite E. }
    clear E. behaviour_cases E'; try discriminate E';
      apply Exited_inj in E' as [<- <-]; (split; [auto|]); eexists;
      (split; [apply in_or_app; right; left; reflexivity|]);
      (split; [reflexivity|]);
      (split;
       [split;
        [intros Hs; first [discriminate Hs | eauto]
        |intros [? Hl]; first [reflexivity | congruence]]|]);
      intros t h ms Hin; entries Hin; lia.
  - intros Hne fuel Hf. rewrite launcher_enough_fuel by exact Hf.
    unfold behaviour, behaviour_main_app.
    destruct (spawn m 1 _ _ _) as [err|[l|]]; [| |congruence];
      destruct (spawn m _ _ _ _); eauto.
Qed.

Lemma exit_code_contract_witness :
  let m := Examples.machine_of Examples.tool_path (Refused 2) (Started None) in
  spawn m 1 (update_cmdline m) CREATE_NO_WINDOW (install_dir m)
    <> Started None /\
  exists w, launcher m Examples.junk_x 1 [] 10 = Exited 0 w /\
            main_app_started w = true.
Proof.
  intros m.
  assert (Hne : spawn m 1 (update_cmdline m) CREATE_NO_WINDOW (install_dir m)
                <> Started None) by discriminate.
  split; [exact Hne|].
  destruct (proj2 (exit_code_contract m Examples.junk_x 1 []) Hne 10 (le_n 10))
    as (code & w & E).
  destruct (proj1 (exit_code_contract m Examples.junk_x 1 []) 10 code w E)
    as [[[-> Hs] | [-> Hs]] _].
  - exists w. split; [exact E | exact Hs].
  - exfalso. revert E. vm_compute. intros E. discriminate E.
Defined.

(** C3.  Failure of the main application.  When the attempt to start the
    main application does not start it, the run returns 1, having shown
    one dialog: its caption is "Update Launcher Error", its text carries
    the last-error code of the failed [CreateProcessA] in decimal, and the
    [MessageBoxA] call that shows it is the only call of the run that
    produces output. *)
Theorem main_app_failure_is_reported m junk argc argv fuel tm :
  10 <= fuel ->
  In (tm, call_main m) (history (final (launcher m junk argc argv fuel))) ->
  main_app_started (final (launcher m junk argc argv fuel)) = false ->
  exists w err,
    launcher m junk argc argv fuel = Exited 1 w /\
    spawn m tm (main_cmdline m) main_app_flags (install_dir m) = Refused err /\
    last_error w = (err mod DWORD_modulus)%Z /\
    atoul (fmt_lu (last_error w)) = last_error w /\
    dialogs w =
      [{| d_text := lit "Failed to launch SIP Toast.exe (Error: "
                      ++ fmt_lu (last_error w) ++ lit ")";
          d_caption := lit "Update Launcher Error";
          d_type := Z.lor MB_OK MB_ICONERROR |}] /\
    filter (fun e => is_dialog_call (snd e)) (history w) =
      [(tm + 2,
        CallMessageBoxA NULL
          (lit "Failed to launch SIP Toast.exe (Error: "
             ++ fmt_lu (last_error w) ++ lit ")")
          (lit "Update Launcher Error") (Z.lor MB_OK MB_ICONERROR))].
Proof.
  intros Hf. rewrite launcher_enough_fuel by exact Hf.
  assert (Hdec : forall err,
             atoul (fmt_lu (err mod DWORD_modulus)) = (err mod DWORD_modulus)%Z).
  { intros err. destruct (fmt_lu_spec (err mod DWORD_modulus)) as (Hv & _).
    rewrite Hv. apply Z.mod_mod. discriminate. }
  unfold behaviour, behaviour_main_app.
  destruct (spawn m 1 _ _ _) as [e1|[l|]];
    [destruct (spawn m 2 _ _ _) as [e2|l2] eqn:S2
    |destruct (spawn m _ _ _ _) as [e2|l2] eqn:S2 |];
    intros Hin Hs; try discriminate Hs; entries Hin;
    eexists; exists e2; cbn [last_error dialogs history];
    rewrite <- error_text_whole;
    (repeat split; [exact S2 | apply Hdec]).
Qed.

Lemma main_app_failure_is_reported_witness :
  let m := Examples.machine_of Examples.tool_path (Refused 2) (Refused 2) in
  exists w,
    launcher m Examples.junk_x 1 [] 10 = Exited 1 w /\
    map d_text (dialogs w) = [lit "Failed to launch SIP Toast.exe (Error: 2)"].
Proof.
  intros m.
  assert (Hin : In (2, call_main m)
                  (history (final (launcher m Examples.junk_x 1 [] 10)))).
  { vm_compute. right. right. left. reflexivity. }
  destruct (main_app_failure_is_reported m Examples.junk_x 1 [] 10 2
              (le_n 10) Hin eq_refl)
    as (w & err & E & S2 & He & _ & Hd & _).
  exists w. split; [exact E|]. rewrite Hd, He.
  injection S2 as <-. reflexivity.
Defined.

(** C4.  The update step is optional.  When the update-step process cannot
    be started, the very next call starts the main application; a dialog,
    if any is shown, is shown after that attempt and because it failed;
    and when the machine starts the main application the run returns 0
    with the application started and no dialog shown. *)
Theorem missing_update_step_is_skipped m junk argc argv fuel err :
  10 <= fuel ->
  spawn m 1 (update_cmdline m) CREATE_NO_WINDOW (install_dir m)
    = Refused err ->
  firstn 3 (history (final (launcher m junk argc argv fuel))) =
    [(0, CallGetModuleFileNameA NULL MAX_PATH);
     (1, call_update m); (2, call_main m)] /\
  (forall t c,
     In (t, c) (history (final (launcher m junk argc argv fuel))) ->
     is_dialog_call c = true ->
     2 < t /\ main_app_started (final (launcher m junk argc argv fuel)) = false) /\
  (forall lifetime,
     spawn m 2 (main_cmdline m) main_app_flags (install_dir m)
       = Started lifetime ->
     exists w,
       launcher m junk argc argv fuel = Exited 0 w /\
       main_app_started w = true /\ dialogs w = [] /\
       forall t c, In (t, c) (history w) -> is_dialog_call c = false).
Proof.
  intros Hf H. rewrite launcher_enough_fuel by exact Hf.
  unfold behaviour. rewrite H. unfold behaviour_main_app.
  destruct (spawn m 2 _ _ _) as [e2|l2]; (split; [reflexivity|]); split.
  - intros t c Hin Hd. entries Hin; try discriminate Hd.
    split; [lia | reflexivity].
  - intros lifetime [=].
  - intros t c Hin Hd. entries Hin; discriminate Hd.
  - intros lifetime _. eexists. repeat split.
    intros t c Hin. entries Hin; reflexivity.
Qed.

Lemma missing_update_step_is_skipped_witness :
  let m := Examples.machine_of Examples.tool_path (Refused 2) (Started None) in
  spawn m 1 (update_cmdline m) CREATE_NO_WINDOW (install_dir m) = Refused 2 /\
  exists w, launcher m Examples.junk_x 1 [] 10 = Exited 0 w /\ dialogs w = [].
Proof.
  intros m. split; [reflexivity|].
  destruct (proj2 (proj2 (missing_update_step_is_skipped m Examples.junk_x
                            1 [] 10 2 (le_n 10) eq_refl)) None eq_refl)
    as (w & E & _ & Hd & _).
  exists w. split; [exact E | exact Hd].
Defined.

(** The update step is attempted by the second call of every run. *)
Lemma launcher_update_attempted m junk argc argv k :
  In (1, call_update m) (history (final (launcher m junk argc argv (2 + k)))).
Proof.
  destruct (run_more_fuel m 2 (2 + k) (main junk argc argv) (boot m))
    as [[h Hh] _]; [lia|].
  unfold launcher. rewrite Hh. apply in_or_app. left. clear Hh h.
  unfold main, main_with. compute_call. call m. call m.
  destruct (spawn m _ _ _ _); rewrite run_out; cbn [final history In]; auto.
Qed.

(** Every process the launcher starts is started by one of two calls. *)
Lemma launcher_create_process_calls m junk argc argv fuel t c :
  In (t, c) (history (final (launcher m junk argc argv fuel))) ->
  is_create_process c = true ->
  c = call_update m \/ c = call_main m.
Proof.
  intros Hin Hc. apply in_history_prefix in Hin.
  unfold behaviour in Hin.
  destruct (spawn m 1 _ _ _) as [e1|[l|]];
    try main_app_cases Hin; entries Hin; try discriminate Hc; auto.
Qed.

(** C5.  The update step under a long directory.  With the launcher at
    [C:\aaa...a\u.exe], a path of 259 characters in a directory [d] of 253,
    the run starts the update step with the command line [cmd /c "d\updat"],
    268 characters, where [cmd /c "d\update.bat"] has 273: the script
    path is cut at the [MAX_PATH - 1] characters of [batchPath].  The same
    run starts the main application with ["d\SIP Toast.exe"] in full, and
    both in directory [d]; these are the only processes it starts. *)
Theorem long_directory_cuts_the_script_path :
  let m := Examples.machine_of Examples.long_path (Started (Some 5))
             (Started None) in
  let d := lit "C:\" ++ repeat "a"%char 250 in
  let w := final (launcher m Examples.junk_x 1 [] 10) in
  let update cmd :=
    CallCreateProcessA None cmd false CREATE_NO_WINDOW d startup in
  let app cmd :=
    CallCreateProcessA None cmd false
      (Z.lor NORMAL_PRIORITY_CLASS CREATE_NEW_CONSOLE) d startup in
  cstr (module_file_name m) = d ++ lit "\u.exe" /\
  length (cstr (module_file_name m)) = 259 /\
  length d = 253 /\
  launcher m Examples.junk_x 1 [] 10 = Exited 0 w /\
  map snd (filter (fun e => is_create_process (snd e)) (history w)) =
    [update (lit "cmd /c " ++ dquote ++ d ++ lit "\updat" ++ dquote);
     app (dquote ++ d ++ lit "\SIP Toast.exe" ++ dquote)] /\
  lit "cmd /c " ++ dquote ++ d ++ lit "\updat" ++ dquote
    <> lit "cmd /c " ++ dquote ++ d ++ lit "\update.bat" ++ dquote /\
  length (lit "cmd /c " ++ dquote ++ d ++ lit "\updat" ++ dquote) = 268 /\
  length (lit "cmd /c " ++ dquote ++ d ++ lit "\update.bat" ++ dquote) = 273.
Proof.
  intros m d w update app.
  assert (E : launcher m Examples.junk_x 1 [] 10 = Exited 0 w)
    by (vm_compute; reflexivity).
  split; [vm_compute; reflexivity|].
  split; [vm_compute; reflexivity|].
  split; [vm_compute; reflexivity|].
  split; [exact E|].
  split; [vm_compute; reflexivity|].
  split; [|split; vm_compute; reflexivity].
  intros H. apply (f_equal (@length ascii)) in H. vm_compute in H.
  discriminate H.
Qed.

(** C6.  The exit code of the update step is not looked at.  Two machines
    that differ only in the exit codes of the processes they run give the
    same complete run: the same result of [main], the same calls at the
    same times, the same dialogs, the same processes and handles; only the
    exit codes recorded for the processes differ. *)
Theorem update_exit_code_is_ignored m codes junk argc argv fuel :
  10 <= fuel ->
  forget_exit_codes (launcher (with_exit_code m codes) junk argc argv fuel) =
  forget_exit_codes (launcher m junk argc argv fuel).
Proof.
  intros Hf. rewrite !launcher_enough_fuel by exact Hf.
  unfold behaviour, behaviour_main_app.
  change (update_cmdline (with_exit_code m codes)) with (update_cmdline m).
  change (main_cmdline (with_exit_code m codes)) with (main_cmdline m).
  change (install_dir (with_exit_code m codes)) with (install_dir m).
  change (spawn (with_exit_code m codes)) with (spawn m).
  change (call_update (with_exit_code m codes)) with (call_update m).
  change (call_main (with_exit_code m codes)) with (call_main m).
  change (error_after_resolve (with_exit_code m codes))
    with (error_after_resolve m).
  destruct (spawn m 1 _ _ _) as [e1|[l|]];
    try destruct (spawn m _ _ _ _) as [e2|l2]; reflexivity.
Qed.

Lemma update_exit_code_is_ignored_witness :
  let m := Examples.machine_of Examples.tool_path (Started (Some 50))
             (Started None) in
  let m' := with_exit_code m (fun _ => 7%Z) in
  map p_code (procs (final (launcher m Examples.junk_x 1 [] 10))) = [3%Z; 3%Z] /\
  map p_code (procs (final (launcher m' Examples.junk_x 1 [] 10))) = [7%Z; 7%Z] /\
  forget_exit_codes (launcher m' Examples.junk_x 1 [] 10) =
  forget_exit_codes (launcher m Examples.junk_x 1 [] 10).
Proof.
  intros m m'. split; [reflexivity|]. split; [reflexivity|].
  exact (update_exit_code_is_ignored m (fun _ => 7%Z) Examples.junk_x 1 [] 10
           (le_n 10)).
Defined.

(** C7.  Handles.  When [main] returns no handle is open.  Each process
    that was created had its process handle and then its thread handle
    closed, after its creation, before [main] returned and before any
    later start of a process.  For the update step the two closes follow
    the reading of the exit code at once; for the main application they
    follow its creation at once and are the last calls of the run. *)
Theorem handles_are_released m junk argc argv fuel code w :
  launcher m junk argc argv fuel = Exited code w ->
  handles w = [] /\
  forall p, In p (procs w) ->
    (exists t1 t2,
       In (t1, CallCloseHandle (p_hProcess p)) (history w) /\
       In (t2, CallCloseHandle (p_hThread p)) (history w) /\
       p_born p < t1 /\ t1 < t2 /\ t2 < clock w /\
       forall t c, In (t, c) (history w) -> is_create_process c = true ->
                   p_born p < t -> t2 < t) /\
    (is_update_process p = true ->
     exists pre post t,
       history w =
         pre ++ [(t, CallGetExitCodeProcess (p_hProcess p));
                 (t + 1, CallCloseHandle (p_hProcess p));
                 (t + 2, CallCloseHandle (p_hThread p))] ++ post) /\
    (is_main_process p = true ->
     exists pre,
       history w =
         pre ++ [(p_born p, call_main m);
                 (p_born p + 1, CallCloseHandle (p_hProcess p));
                 (p_born p + 2, CallCloseHandle (p_hThread p))]).
Proof.
  intros E.
  assert (E' : behaviour m = Exited code w).
  { rewrite <- E. symmetry. apply launcher_ended. now rewrite E. }
  clear E. behaviour_cases E'; try discriminate E';
    apply Exited_inj in E' as [<- <-]; (split; [reflexivity|]);
    intros p Hp; cbn [procs app In] in Hp;
    repeat (destruct Hp as [<-|Hp]); try contradiction.
  all: cbn [history clock p_hProcess p_hThread p_born update_process
            main_process app].
  all: split; [|split].
  all: try (intros Hflag; discriminate Hflag).
  all: try (intros _;
            first [eexists [_; _]; reflexivity
                  |eexists [_; _; _; _; _; _]; reflexivity]).
  all: try (intros _; eexists [_; _; _], _, _; reflexivity).
  all: do 2 eexists;
    (split; [find_entry|]); (split; [find_entry|]);
    (split; [lia|]); (split; [lia|]); (split; [lia|]);
    intros t c Hin Hc Ht; entries Hin; try discriminate Hc; lia.
Qed.

Lemma handles_are_released_witness :
  let m := Examples.machine_of Examples.tool_path (Started (Some 50))
             (Started None) in
  let o := launcher m Examples.junk_x 1 [] 10 in
  o = Exited 0 (final o) /\ length (procs (final o)) = 2 /\
  handles (final o) = [].
Proof.
  intros m o.
  assert (E : o = Exited 0 (final o)) by (vm_compute; reflexivity).
  split; [exact E|]. split; [vm_compute; reflexivity|].
  exact (proj1 (handles_are_released m Examples.junk_x 1 [] 10 0 (final o) E)).
Defined.

(** C8.  The arguments of [main] are not looked at: the program is the
    same whatever [argc] and [argv] are, and so is every run of it, with
    the same calls, dialogs and result. *)
Theorem arguments_are_ignored m junk argc argv argc' argv' fuel :
  main junk argc argv = main junk argc' argv' /\
  launcher m junk argc argv fuel = launcher m junk argc' argv' fuel.
Proof. split; reflexivity. Qed.

(** The main application is attempted by every run that returns. *)
Lemma launcher_main_attempted m junk argc argv fuel code w :
  launcher m junk argc argv fuel = Exited code w ->
  exists t, In (t, call_main m) (history w).
Proof.
  intros E.
  assert (E' : behaviour m = Exited code w).
  { rewrite <- E. symmetry. apply launcher_ended. now rewrite E. }
  clear E. behaviour_cases E'; try discriminate E';
    apply Exited_inj in E' as [_ <-]; eexists; cbn [history];
    apply in_or_app; right; left; reflexivity.
Qed.

(** The first two calls of every run, with their buffers. *)
Lemma launcher_first_calls m junk argc argv fuel :
  2 <= fuel ->
  firstn 2 (issued m fuel (main junk argc argv) (boot m)) =
    [existT winE _
       (GetModuleFileNameA NULL (auto_array junk "appPath" MAX_PATH) MAX_PATH);
     existT winE _
       (CreateProcessA None
          (write (auto_array junk "cmdLine" (MAX_PATH * 2))
             (update_cmdline m ++ [NUL]))
          NULL NULL false CREATE_NO_WINDOW NULL
          match strrchr (write (auto_array junk "appPath" MAX_PATH)
                           (exe_path m ++ [NUL])) "\"%char with
          | Some i => poke (write (auto_array junk "appPath" MAX_PATH)
                              (exe_path m ++ [NUL])) i NUL
          | None => write (auto_array junk "appPath" MAX_PATH)
                      (exe_path m ++ [NUL])
          end startup ZeroMemory_pi)].
Proof.
  intros Hf. destruct fuel as [|[|fuel]]; [lia|lia|].
  unfold main, main_with. compute_call.
  rewrite issued_call. compute_call.
  rewrite issued_call. compute_call.
  repeat (progress (read_buffers; name_strings m)).
  reflexivity.
Qed.

(** C9.  The install directory.  The first call of [main] asks for the
    path of the executable into [appPath] (line 21), and the call
    returns.  With [received] the array as that call leaves it, the
    array [main] passes on as the working directory of the update step,
    its second call, is [received] with a NUL stored at its last
    backslash (lines 24 to 27): it holds the path cut there.  When the
    path has no backslash the array passed on is [received] itself,
    unmodified, and the whole path is the directory.  The string is the
    working directory of every process [main] starts and the prefix of
    both command lines; the update step is attempted on every run and the
    main application on every run that returns. *)
Theorem install_directory_resolution m junk argc argv :
  let arr := auto_array junk "appPath" MAX_PATH in
  let call1 := GetModuleFileNameA NULL arr MAX_PATH in
  (exists r received w1, os_call m call1 (boot m) = Returns (r, received) w1) /\
  (forall r received w1,
     os_call m call1 (boot m) = Returns (r, received) w1 ->
     let appPath :=
       match strrchr received "\"%char with
       | Some i => poke received i NUL
       | None => received
       end in
     let update :=
       CallCreateProcessA None
         (lit "cmd /c " ++ dquote
            ++ firstn (MAX_PATH - 1) (cstr appPath ++ lit "\update.bat")
            ++ dquote)
         false CREATE_NO_WINDOW (cstr appPath) startup in
     let app :=
       CallCreateProcessA None
         (dquote ++ cstr appPath ++ lit "\SIP Toast.exe" ++ dquote)
         false main_app_flags (cstr appPath) startup in
     cstr received = firstn (MAX_PATH - 1) (cstr (module_file_name m)) /\
     cstr appPath = dirname (cstr received) /\
     (forall d f,
        cstr received = d ++ "\"%char :: f -> ~ In "\"%char f ->
        cstr appPath = d) /\
     (~ In "\"%char (cstr received) ->
      appPath = received /\ cstr appPath = cstr received) /\
     (forall fuel, 2 <= fuel ->
        (exists cmdLine,
           firstn 2 (issued m fuel (main junk argc argv) (boot m)) =
             [existT winE _ call1;
              existT winE _
                (CreateProcessA None cmdLine NULL NULL false CREATE_NO_WINDOW
                   NULL appPath startup ZeroMemory_pi)]) /\
        In (1, update) (history (final (launcher m junk argc argv fuel)))) /\
     (forall fuel t c,
        In (t, c) (history (final (launcher m junk argc argv fuel))) ->
        is_create_process c = true -> c = update \/ c = app) /\
     (forall fuel code w,
        launcher m junk argc argv fuel = Exited code w ->
        exists t, In (t, app) (history w))).
Proof.
  intros arr call1. split.
  { do 3 eexists. reflexivity. }
  intros r received w1 E appPath update app.
  assert (Er : received = write arr (exe_path m ++ [NUL])).
  { cbn -[write firstn cstr auto_array Nat.ltb] in E.
    apply (f_equal (fun o => match o with
                             | Returns (_, b) _ => b
                             | Blocks _ => received
                             end)) in E.
    symmetry. exact E. }
  assert (Hr : cstr received = exe_path m).
  { rewrite Er. apply cstr_write, exe_path_nul_free. }
  assert (Ha : cstr appPath = install_dir m).
  { unfold appPath. rewrite Er.
    apply cstr_cut_at_last_separator, exe_path_nul_free. }
  assert (Hu : update = call_update m).
  { unfold update, call_update. rewrite Ha, update_cmdline_whole.
    reflexivity. }
  assert (Hm : app = call_main m).
  { unfold app, call_main. rewrite Ha, main_cmdline_whole. reflexivity. }
  clearbody update app. subst update app.
  split; [exact Hr|]. split; [now rewrite Ha, Hr|].
  split; [|split; [|split; [|split]]].
  - intros d f Ed Hf. rewrite Ha. unfold install_dir. rewrite <- Hr, Ed.
    apply dirname_split; [|exact Hf].
    rewrite <- Ed, Hr. apply exe_path_nul_free.
  - intros Hs. rewrite Hr in Hs.
    assert (Eu : appPath = received).
    { unfold appPath. rewrite Er, write_terminated. unfold strrchr.
      rewrite strrchr_from_terminated by apply exe_path_nul_free.
      rewrite strrchr_from_absent;
        [reflexivity | apply exe_path_nul_free | exact Hs]. }
    split; [exact Eu | now rewrite Eu].
  - intros fuel Hf. split.
    + eexists. rewrite (launcher_first_calls m junk argc argv fuel Hf).
      unfold appPath, call1, arr. rewrite Er. reflexivity.
    + replace fuel with (2 + (fuel - 2)) by lia.
      apply launcher_update_attempted.
  - intros fuel t c. apply launcher_create_process_calls.
  - intros fuel code w. apply launcher_main_attempted.
Qed.

Lemma install_directory_resolution_witness :
  let bare := Examples.machine_of (lit "update.exe") (Refused 2) (Started None) in
  let m := Examples.machine_of Examples.tool_path (Refused 2) (Started None) in
  ~ In "\"%char (lit "update.exe") /\
  In (1, CallCreateProcessA None
           (lit "cmd /c " ++ dquote ++ lit "update.exe\update.bat" ++ dquote)
           false CREATE_NO_WINDOW (lit "update.exe") startup)
    (history (final (launcher bare Examples.junk_x 1 [] 10))) /\
  In (1, CallCreateProcessA None
           (lit "cmd /c " ++ dquote ++ lit "C:\Apps\Tool\update.bat" ++ dquote)
           false CREATE_NO_WINDOW (lit "C:\Apps\Tool") startup)
    (history (final (launcher m Examples.junk_x 1 [] 10))) /\
  let received :=
    write (auto_array Examples.junk_x "appPath" MAX_PATH)
      (lit "update.exe" ++ [NUL]) in
  match strrchr received "\"%char with
  | Some i => poke received i NUL
  | None => received
  end = received.
Proof.
  intros bare m.
  assert (Hf : ~ In "\"%char (lit "update.exe")).
  { vm_compute. intuition discriminate. }
  assert (H2 : 2 <= 10) by (repeat constructor).
  split; [exact Hf|]. split; [|split].
  - destruct (proj2 (install_directory_resolution bare Examples.junk_x 1 [])
                _ _ _ eq_refl) as (_ & _ & _ & _ & Hc & _).
    exact (proj2 (Hc 10 H2)).
  - destruct (proj2 (install_directory_resolution m Examples.junk_x 1 [])
                _ _ _ eq_refl) as (_ & _ & _ & _ & Hc & _).
    exact (proj2 (Hc 10 H2)).
  - destruct (proj2 (install_directory_resolution bare Examples.junk_x 1 [])
                _ _ _ eq_refl) as (_ & _ & _ & Hn & _).
    exact (proj1 (Hn Hf)).
Defined.

(** The call is one of the four of the source. *)
Ltac bounded :=
  split;
  [ symmetry; repeat apply write_bounded_length; apply auto_array_length
  | first [ left; split; [reflexivity | eexists; reflexivity]
          | right; left; split;
            [reflexivity
            | first [left; eexists; reflexivity | right; eexists; reflexivity]]
          | right; right; split; [reflexivity | eexists; reflexivity] ] ].

(** Replace the library function by [snprintf] where the program calls
    it. *)
Ltac link sn H :=
  repeat (match goal with
          | |- context [sn ?b ?n ?s] => rewrite (H b n s) by bounded
          end; compute_call).

Ltac linked fuel m sn H :=
  link sn H;
  destruct fuel as [|fuel]; [rewrite !run_out; reflexivity|];
  repeat first [rewrite run_call | rewrite run_call_inner];
  compute_call; rewrite ?Z.eqb_refl; compute_call; flatten_world;
  repeat (progress (read_buffers; name_strings m));
  link sn H.

(** Every [snprintf] call of [main] is within the declared bounds: the
    run is the same with any library function that is [snprintf] on those
    calls. *)
Lemma launcher_calls_are_bounded sn m junk argc argv fuel :
  snprintf_on bounded_call sn ->
  run m fuel (main_with sn junk argc argv) (boot m)
    = launcher m junk argc argv fuel.
Proof.
  intros H. unfold launcher, main, main_with. compute_call.
  linked fuel m sn H. linked fuel m sn H.
  destruct (spawn m 1 (update_cmdline m) CREATE_NO_WINDOW (install_dir m))
    as [e1|[l|]].
  - rewrite !run_ret_inner. compute_call. linked fuel m sn H.
    destruct (spawn m 2 (main_cmdline m) 48 (install_dir m)) as [e2|l2].
    + linked fuel m sn H. linked fuel m sn H. destruct fuel; reflexivity.
    + linked fuel m sn H. linked fuel m sn H. destruct fuel; reflexivity.
  - linked fuel m sn H. linked fuel m sn H. linked fuel m sn H.
    linked fuel m sn H.
    rewrite !run_ret_inner. compute_call. linked fuel m sn H.
    match goal with |- context [spawn m ?a ?b ?c ?d] =>
      destruct (spawn m a b c d) as [e2|l2] end.
    + linked fuel m sn H. linked fuel m sn H. destruct fuel; reflexivity.
    + linked fuel m sn H. linked fuel m sn H. destruct fuel; reflexivity.
  - linked fuel m sn H. reflexivity.
Qed.

(** A bounded call passes the size of its array, one of the three
    declared. *)
Lemma bounded_call_sizes buf n s :
  bounded_call buf n s ->
  0 < n /\ n <= length buf /\ (n = MAX_PATH \/ n = MAX_PATH * 2 \/ n = 256).
Proof.
  intros [Hn [[-> _]|[[-> _]|[-> _]]]]; rewrite <- Hn; unfold MAX_PATH;
    repeat split; auto; lia.
Qed.

(** C10.  Bounded construction.  [snprintf] given a size within the array
    stores nothing outside the first [n] bytes, terminates what it stores,
    and leaves the first [n - 1] characters of the text as the C string.
    Every call of [snprintf] that [main] makes is of that kind, with the
    size of the array it writes: [MAX_PATH] for [batchPath],
    [MAX_PATH * 2] for [cmdLine], 256 for [errorMsg].  This is shown by
    linking [main] with any function that is [snprintf] on such calls and
    arbitrary on all others: every run is the same, so no other call is
    made.  Every array the launcher hands to the system still has its
    declared size, whatever the path of the executable; the strings the
    system reads are the cut texts; and a long install directory does give
    a cut command line for the update step, with the run ending in
    success and no dialog. *)
Theorem bounded_string_construction :
  (forall buf n s,
     0 < n -> n <= length buf -> nul_free s ->
     length (fst (snprintf buf n s)) = length buf /\
     (forall i, n <= i ->
        nth_error (fst (snprintf buf n s)) i = nth_error buf i) /\
     nth_error (fst (snprintf buf n s)) (Nat.min (length s) (n - 1))
       = Some NUL /\
     cstr (fst (snprintf buf n s)) = firstn (n - 1) s) /\
  (forall buf n s,
     bounded_call buf n s ->
     0 < n /\ n <= length buf /\
     (n = MAX_PATH \/ n = MAX_PATH * 2 \/ n = 256)) /\
  (forall sn m junk argc argv fuel,
     snprintf_on bounded_call sn ->
     run m fuel (main_with sn junk argc argv) (boot m)
       = launcher m junk argc argv fuel) /\
  (forall m junk argc argv fuel,
     Forall declared_sizes (issued m fuel (main junk argc argv) (boot m))) /\
  (forall m junk argc argv fuel t c,
     In (t, c) (history (final (launcher m junk argc argv fuel))) ->
     match c with
     | CallCreateProcessA _ cmd _ _ _ _ =>
         cmd = firstn (MAX_PATH * 2 - 1)
                 (lit "cmd /c " ++ dquote
                    ++ firstn (MAX_PATH - 1)
                         (install_dir m ++ lit "\update.bat")
                    ++ dquote) \/
         cmd = firstn (MAX_PATH * 2 - 1)
                 (dquote ++ install_dir m ++ lit "\SIP Toast.exe" ++ dquote)
     | CallMessageBoxA _ text _ _ =>
         exists err,
           text = firstn 255
                    (lit "Failed to launch SIP Toast.exe (Error: "
                       ++ fmt_lu err ++ lit ")")
     | _ => True
     end) /\
  (exists m w cmd,
     launcher m Examples.junk_x 1 [] 10 = Exited 0 w /\ dialogs w = [] /\
     In (1, CallCreateProcessA None cmd false CREATE_NO_WINDOW (install_dir m)
              startup) (history w) /\
     cmd = lit "cmd /c " ++ dquote
             ++ firstn (MAX_PATH - 1) (install_dir m ++ lit "\update.bat")
             ++ dquote /\
     length (install_dir m ++ lit "\update.bat") = 264 /\
     length (firstn (MAX_PATH - 1) (install_dir m ++ lit "\update.bat")) = 259).
Proof.
  split; [|split; [|split; [|split; [|split]]]].
  - intros buf n s Hn Hb Hs.
    destruct (snprintf_bounded buf n s Hn Hb Hs) as (H1 & H2 & H3 & H4 & _).
    auto.
  - apply bounded_call_sizes.
  - intros sn m junk argc argv fuel. apply launcher_calls_are_bounded.
  - apply buffers_keep_their_sizes.
  - intros m junk argc argv fuel t c Hin. apply in_history_prefix in Hin.
    unfold behaviour in Hin.
    destruct (spawn m 1 _ _ _) as [e1|[l|]];
      try main_app_cases Hin; entries Hin;
      first [exact I | left; reflexivity | right; reflexivity
            | eexists; reflexivity].
  - exists (Examples.machine_of Examples.long_path (Started (Some 5))
              (Started None)).
    eexists. eexists. split; [vm_compute; reflexivity|].
    split; [reflexivity|]. split; [right; left; reflexivity|].
    split; [vm_compute; reflexivity|]. split; vm_compute; reflexivity.
Qed.

Lemma bounded_string_construction_witness :
  let sn := fun buf n s =>
              if n <=? length buf then snprintf buf n s else ([], 0%Z) in
  let m := Examples.machine_of Examples.long_path (Started (Some 5))
             (Started None) in
  let buf := auto_array Examples.junk_x "batchPath" 8 in
  let s := lit "C:\Apps\update.bat" in
  snprintf_on bounded_call sn /\
  run m 10 (main_with sn Examples.junk_x 1 []) (boot m)
    = launcher m Examples.junk_x 1 [] 10 /\
  (0 < 8 /\ 8 <= length buf /\ nul_free s) /\
  length (fst (snprintf buf 8 s)) = 8 /\
  cstr (fst (snprintf buf 8 s)) = lit "C:\Apps".
Proof.
  intros sn m buf s.
  assert (H : snprintf_on bounded_call sn).
  { intros b n t [Hn _]. unfold sn. rewrite Hn, Nat.leb_refl. reflexivity. }
  assert (H0 : 0 < 8) by (repeat constructor).
  assert (H1 : 8 <= length buf) by (vm_compute; repeat constructor).
  assert (H2 : nul_free s) by (apply nul_freeb_sound; reflexivity).
  split; [exact H|]. split.
  { exact (proj1 (proj2 (proj2 bounded_string_construction))
             sn m Examples.junk_x 1%Z [] 10 H). }
  split; [split; [exact H0 | split; [exact H1 | exact H2]]|].
  destruct (proj1 bounded_string_construction buf 8 s H0 H1 H2)
    as (Hl & _ & _ & Hc).
  split; [exact Hl | exact Hc].
Defined.

(** * Further properties of [main]

    Properties of the launcher beyond the specification's sentences: the
    independence of the stack content, the absence of retries, the shape
    of the working directory, the room in the arrays, the point where the
    script path is cut, the dialog as a function of the result, the only
    wait, and the order in which handles are closed. *)

Lemma cstr_cut_terminated s rest :
  nul_free s ->
  cstr match strrchr (s ++ NUL :: rest) "\"%char with
       | Some i => poke (s ++ NUL :: rest) i NUL
       | None => s ++ NUL :: rest
       end = dirname s.
Proof.
  intros Hs. unfold dirname, strrchr.
  rewrite strrchr_from_terminated by exact Hs.
  destruct (strrchr_from 0 s "\"%char) as [i|] eqn:E.
  - destruct (strrchr_from_Some _ _ _ _ Hs E) as (d & f & Ep & _ & ->).
    apply cstr_poke_NUL; [exact Hs|].
    rewrite Ep, length_app. simpl. lia.
  - now apply cstr_terminated.
Qed.

Lemma run_step m f t w :
  run m (S f) t w =
  match observe t with
  | RetF r => Exited r w
  | TauF t' => run m f t' w
  | VisF e k =>
      match os_call m e w with
      | Returns x w' => run m f (k x) w'
      | Blocks w' => Blocked w'
      end
  end.
Proof. reflexivity. Qed.

(** One more call on both sides of an equation between two runs that
    started from a buffer holding the string of [Hs]. *)
Ltac both Hs fuel :=
  destruct fuel as [|fuel]; [rewrite !run_out; reflexivity|];
  repeat first [rewrite run_call | rewrite run_call_inner];
  compute_call;
  repeat (progress (unfold process_of;
                    cbn [handles procs handle_lookup handle_remove];
                    rewrite ?Z.eqb_refl; compute_call));
  flatten_world;
  repeat (progress (rewrite ?cstr_cut_terminated by exact Hs; read_buffers)).

Ltac both_done fuel := destruct fuel; reflexivity.

(** From the second call on, two runs from different stack contents are
    the same when [appPath] holds the same terminated string. *)
Lemma rest_of_run_ignores_stack m junk junk' argc argv :
  exists k k',
    observe (main junk argc argv) =
      VisF (GetModuleFileNameA NULL (auto_array junk "appPath" MAX_PATH)
              MAX_PATH) k /\
    observe (main junk' argc argv) =
      VisF (GetModuleFileNameA NULL (auto_array junk' "appPath" MAX_PATH)
              MAX_PATH) k' /\
    (forall fuel r r' s rest rest' w,
       nul_free s -> handles w = [] -> procs w = [] ->
       run m fuel (k (r, s ++ NUL :: rest)) w =
       run m fuel (k' (r', s ++ NUL :: rest')) w).
Proof.
  do 2 eexists. split; [unfold main, main_with; compute_call; reflexivity|].
  split; [unfold main, main_with; compute_call; reflexivity|].
  intros fuel r r' s rest rest' w Hs Hh Hp.
  destruct w as [c e ps hs nh ds h]. cbn in Hh, Hp. subst hs ps.
  compute_call.
  repeat match goal with
    | |- context [ITree.subst ?k (Ret ?x)] =>
        change (ITree.subst k (Ret x)) with (ITree.bind (Ret x) k)
    end.
  rewrite !run_ret_inner. compute_call.
  rewrite ?cstr_cut_terminated by exact Hs.
  repeat (progress read_buffers).
  both Hs fuel.
  match goal with |- context [spawn m ?a ?b ?c ?d] =>
    destruct (spawn m a b c d) as [e1|[l|]] end.
  - rewrite !run_ret_inner. compute_call. both Hs fuel.
    match goal with |- context [spawn m ?a ?b ?c ?d] =>
      destruct (spawn m a b c d) as [e2|l2] end.
    + both Hs fuel. both Hs fuel. both_done fuel.
    + both Hs fuel. both Hs fuel. both_done fuel.
  - both Hs fuel. both Hs fuel. both Hs fuel. both Hs fuel.
    rewrite !run_ret_inner. compute_call. both Hs fuel.
    match goal with |- context [spawn m ?a ?b ?c ?d] =>
      destruct (spawn m a b c d) as [e2|l2] end.
    + both Hs fuel. both Hs fuel. both_done fuel.
    + both Hs fuel. both Hs fuel. both_done fuel.
  - both Hs fuel. reflexivity.
Qed.

(** X1.  The indeterminate content of the automatic arrays has no
    effect once the first call has left a terminated string in [appPath].
    The program begins with [GetModuleFileNameA] on [appPath]; whatever
    value that call returns (line 21 discards it) and whatever bytes lie
    behind the terminator, the rest of the run is the same from any two
    stack contents: every other array is written and terminated before it
    is read.  The system of the model always stores such a string, the
    path cut to [MAX_PATH - 1] characters, so on it whole runs agree.  A
    call that stored nothing would leave [appPath] as the stack had it,
    which the property does not cover. *)
Theorem stack_content_is_irrelevant m junk junk' argc argv fuel :
  exists k k',
    observe (main junk argc argv) =
      VisF (GetModuleFileNameA NULL (auto_array junk "appPath" MAX_PATH)
              MAX_PATH) k /\
    observe (main junk' argc argv) =
      VisF (GetModuleFileNameA NULL (auto_array junk' "appPath" MAX_PATH)
              MAX_PATH) k' /\
    (forall r r' s rest rest' w,
       nul_free s -> handles w = [] -> procs w = [] ->
       run m fuel (k (r, s ++ NUL :: rest)) w =
       run m fuel (k' (r', s ++ NUL :: rest')) w) /\
    (forall buf w,
       exists r rest w',
         os_call m (GetModuleFileNameA NULL buf MAX_PATH) w =
           Returns (r, exe_path m ++ NUL :: rest) w' /\
         nul_free (exe_path m)) /\
    launcher m junk argc argv fuel = launcher m junk' argc argv fuel.
Proof.
  destruct (rest_of_run_ignores_stack m junk junk' argc argv)
    as (k & k' & Ek & Ek' & H).
  exists k, k'. split; [exact Ek|]. split; [exact Ek'|].
  split; [intros; now apply H|]. split.
  - intros buf w. do 3 eexists. split; [|apply exe_path_nul_free].
    cbn -[write firstn cstr Nat.ltb]. rewrite write_terminated.
    reflexivity.
  - unfold launcher. destruct fuel as [|fuel]; [reflexivity|].
    rewrite !run_step, Ek, Ek'.
    cbn -[write firstn cstr auto_array Nat.ltb run].
    change (firstn 259 (cstr (module_file_name m))) with (exe_path m).
    rewrite !write_terminated.
    apply H; [apply exe_path_nul_free | reflexivity | reflexivity].
Qed.

Lemma stack_content_is_irrelevant_witness :
  let m := Examples.machine_of Examples.tool_path (Started (Some 50))
             (Refused 5) in
  let junk_y := fun (_ : string) (_ : nat) => "y"%char in
  let s := lit "C:\Apps\Tool\update.exe" in
  exists k k',
    observe (main Examples.junk_x 1 []) =
      VisF (GetModuleFileNameA NULL
              (auto_array Examples.junk_x "appPath" MAX_PATH) MAX_PATH) k /\
    observe (main junk_y 1 []) =
      VisF (GetModuleFileNameA NULL (auto_array junk_y "appPath" MAX_PATH)
              MAX_PATH) k' /\
    nul_free s /\
    run m 9 (k (23%Z, s ++ NUL :: lit "left over")) (boot m) =
    run m 9 (k' (0%Z, s ++ NUL :: [])) (boot m).
Proof.
  intros m junk_y s.
  assert (Hs : nul_free s) by (apply nul_freeb_sound; reflexivity).
  destruct (stack_content_is_irrelevant m Examples.junk_x junk_y 1 [] 9)
    as (k & k' & Ek & Ek' & H & _).
  exists k, k'. split; [exact Ek|]. split; [exact Ek'|]. split; [exact Hs|].
  exact (H 23%Z 0%Z s (lit "left over") [] (boot m) Hs eq_refl eq_refl).
Defined.

Lemma count_calls_prefix kind w w' :
  extends w w' -> count_calls kind w <= count_calls kind w'.
Proof.
  intros [[h Hh] _]. unfold count_calls. rewrite Hh, filter_app, length_app.
  lia.
Qed.

(** X2.  No retries.  At every point of every run the launcher has issued
    at most nine calls, among them at most one start of the update step,
    one start of the main application, one wait and one dialog. *)
Theorem nothing_is_tried_twice m junk argc argv fuel :
  let w := final (launcher m junk argc argv fuel) in
  length (history w) <= 9 /\
  count_calls is_update_call w <= 1 /\
  count_calls is_main_app_call w <= 1 /\
  count_calls is_wait_call w <= 1 /\
  count_calls is_dialog_call w <= 1.
Proof.
  intros w.
  pose proof (launcher_prefix m junk argc argv fuel) as Hp. fold w in Hp.
  assert (Hlen : length (history w) <= length (history (final (behaviour m)))).
  { destruct Hp as [[h Hh] _]. rewrite Hh, length_app. lia. }
  pose proof (count_calls_prefix is_update_call _ _ Hp) as H1.
  pose proof (count_calls_prefix is_main_app_call _ _ Hp) as H2.
  pose proof (count_calls_prefix is_wait_call _ _ Hp) as H3.
  pose proof (count_calls_prefix is_dialog_call _ _ Hp) as H4.
  clearbody w. clear Hp. revert Hlen H1 H2 H3 H4.
  unfold behaviour, behaviour_main_app, count_calls.
  destruct (spawn m 1 _ _ _) as [e1|[l|]];
    try destruct (spawn m _ _ _ _) as [e2|l2];
    cbn [final history app filter snd length is_update_call is_main_app_call
         is_wait_call is_dialog_call call_update call_main];
    change (CREATE_NO_WINDOW =? CREATE_NO_WINDOW)%Z with true;
    change (main_app_flags =? main_app_flags)%Z with true;
    change (CREATE_NO_WINDOW =? main_app_flags)%Z with false;
    change (main_app_flags =? CREATE_NO_WINDOW)%Z with false;
    cbn [filter length]; lia.
Qed.

Lemma dirname_has_separator p :
  nul_free p -> In "\"%char p ->
  exists f, p = dirname p ++ "\"%char :: f /\ ~ In "\"%char f.
Proof.
  intros Hp Hin. unfold dirname, strrchr.
  destruct (strrchr_from 0 p "\"%char) as [i|] eqn:E.
  - destruct (strrchr_from_Some _ _ _ _ Hp E) as (d & f & -> & Hf & ->).
    exists f. split; [|exact Hf]. f_equal. simpl.
    rewrite firstn_app, firstn_all, Nat.sub_diag. simpl.
    symmetry. apply app_nil_r.
  - exfalso. exact (strrchr_from_None _ _ _ Hp E Hin).
Qed.

Lemma exe_path_fits m :
  length (cstr (module_file_name m)) < MAX_PATH ->
  exe_path m = cstr (module_file_name m).
Proof. intros H. unfold exe_path. apply firstn_all2. lia. Qed.

(** The working directory of every process the launcher starts. *)
Lemma launcher_working_directory m junk argc argv fuel t app cmd inh fl cwd si :
  In (t, CallCreateProcessA app cmd inh fl cwd si)
    (history (final (launcher m junk argc argv fuel))) ->
  cwd = install_dir m.
Proof.
  intros Hin.
  destruct (launcher_create_process_calls m junk argc argv fuel t _ Hin eq_refl)
    as [E|E]; now injection E.
Qed.

(** The call that starts the update step. *)
Lemma launcher_update_call m junk argc argv fuel t app cmd inh cwd si :
  In (t, CallCreateProcessA app cmd inh CREATE_NO_WINDOW cwd si)
    (history (final (launcher m junk argc argv fuel))) ->
  cmd = update_cmdline m /\ cwd = install_dir m.
Proof.
  intros Hin.
  destruct (launcher_create_process_calls m junk argc argv fuel t _ Hin eq_refl)
    as [E|E]; [now injection E | discriminate E].
Qed.

(** X3.  Directory and file name.  The working directory the launcher
    passes is an initial part of the real path of its executable; when the
    path it received has a backslash, that path is the directory, one
    backslash and a file name free of backslashes, so the directory is
    strictly shorter and does not end where the file name begins. *)
Theorem working_directory_and_file_name
  m junk argc argv fuel t app cmd inh fl cwd si :
  In (t, CallCreateProcessA app cmd inh fl cwd si)
    (history (final (launcher m junk argc argv fuel))) ->
  (exists rest, cstr (module_file_name m) = cwd ++ rest) /\
  (In "\"%char (exe_path m) ->
   exists f, exe_path m = cwd ++ "\"%char :: f /\ ~ In "\"%char f /\
             length cwd + length f + 1 = length (exe_path m)) /\
  (length (cstr (module_file_name m)) < MAX_PATH ->
   exe_path m = cstr (module_file_name m)).
Proof.
  intros Hin. apply launcher_working_directory in Hin. subst cwd.
  split; [|split].
  - destruct (dirname_prefix (exe_path m)) as [f Hf].
    exists (f ++ skipn (MAX_PATH - 1) (cstr (module_file_name m))).
    rewrite app_assoc. fold (install_dir m) in Hf. rewrite <- Hf.
    symmetry. apply firstn_skipn.
  - intros Hs.
    destruct (dirname_has_separator _ (exe_path_nul_free m) Hs) as (f & E & Hf).
    exists f. fold (install_dir m) in E. repeat split; [exact E | exact Hf|].
    apply (f_equal (@length ascii)) in E. rewrite length_app in E.
    simpl in E. lia.
  - apply exe_path_fits.
Qed.

Lemma working_directory_and_file_name_witness :
  let m := Examples.machine_of Examples.tool_path (Refused 2) (Started None) in
  In (2, call_main m) (history (final (launcher m Examples.junk_x 1 [] 10))) /\
  exists f, exe_path m = install_dir m ++ "\"%char :: f /\ f = lit "update.exe".
Proof.
  intros m.
  assert (Hin : In (2, call_main m)
                  (history (final (launcher m Examples.junk_x 1 [] 10)))).
  { vm_compute. right. right. left. reflexivity. }
  split; [exact Hin|].
  assert (Hs : In "\"%char (exe_path m)).
  { vm_compute. right. right. left. reflexivity. }
  destruct (proj1 (proj2 (working_directory_and_file_name m Examples.junk_x 1
                            [] 10 2 _ _ _ _ _ _ Hin)) Hs) as (f & E & _ & _).
  exists f. split; [exact E|].
  change (exe_path m) with (install_dir m ++ "\"%char :: lit "update.exe") in E.
  apply app_inv_head in E. now injection E.
Defined.

(** X4.  Room in the arrays.  A command line the launcher passes has at
    most 275 characters and the text of its dialog at most 50: the 520
    bytes of [cmdLine] and the 256 bytes of [errorMsg] are never used up,
    and the second, third and fourth [snprintf] never cut their text. *)
Theorem command_lines_and_message_fit m junk argc argv fuel t c :
  In (t, c) (history (final (launcher m junk argc argv fuel))) ->
  match c with
  | CallCreateProcessA _ cmd _ _ _ _ =>
      length cmd <= 275 /\
      (cmd = lit "cmd /c " ++ dquote ++ batch_path m ++ dquote \/
       cmd = dquote ++ install_dir m ++ lit "\SIP Toast.exe" ++ dquote)
  | CallMessageBoxA _ text _ _ =>
      length text <= 50 /\
      exists err,
        text = lit "Failed to launch SIP Toast.exe (Error: " ++ fmt_lu err
                 ++ lit ")"
  | _ => True
  end.
Proof.
  intros Hin. apply in_history_prefix in Hin.
  assert (Hu : length (update_cmdline m) <= 275).
  { rewrite update_cmdline_whole, !length_app.
    pose proof (batch_path_length m). unfold MAX_PATH in *. simpl. lia. }
  assert (Hm : length (main_cmdline m) <= 275).
  { rewrite main_cmdline_whole, !length_app.
    pose proof (install_dir_length m). unfold MAX_PATH in *. simpl. lia. }
  assert (He : forall err, length (error_text err) <= 50).
  { intros err. rewrite error_text_whole, !length_app.
    destruct (fmt_lu_spec err) as (_ & Hl & _). simpl. lia. }
  unfold behaviour in Hin.
  destruct (spawn m 1 _ _ _) as [e1|[l|]];
    try main_app_cases Hin; entries Hin; try exact I;
    cbv beta iota delta [call_update call_main];
    first [split; [exact Hu | left; apply update_cmdline_whole]
          |split; [exact Hm | right; apply main_cmdline_whole]
          |split; [apply He | eexists; apply error_text_whole]].
Qed.

Lemma command_lines_and_message_fit_witness :
  let m := Examples.machine_of Examples.long_path (Refused 2) (Refused 5) in
  In (1, call_update m)
    (history (final (launcher m Examples.junk_x 1 [] 10))) /\
  length (update_cmdline m) <= 275.
Proof.
  intros m.
  assert (Hin : In (1, call_update m)
                  (history (final (launcher m Examples.junk_x 1 [] 10)))).
  { vm_compute. right. left. reflexivity. }
  split; [exact Hin|].
  exact (proj1 (command_lines_and_message_fit m Examples.junk_x 1 [] 10 1 _
                  Hin)).
Defined.

(** X5.  Where the script path is cut.  The command line of the update
    step names [d\update.bat] in full exactly when the working directory
    [d] has at most [MAX_PATH - 12] characters; beyond that it names the
    first [MAX_PATH - 1] characters of it and is 268 characters long. *)
Theorem script_path_is_cut_beyond m junk argc argv fuel t app cmd inh cwd si :
  In (t, CallCreateProcessA app cmd inh CREATE_NO_WINDOW cwd si)
    (history (final (launcher m junk argc argv fuel))) ->
  (cmd = lit "cmd /c " ++ dquote ++ cwd ++ lit "\update.bat" ++ dquote
   <-> length cwd <= MAX_PATH - 12) /\
  (MAX_PATH - 12 < length cwd ->
   cmd = lit "cmd /c " ++ dquote
           ++ firstn (MAX_PATH - 1) (cwd ++ lit "\update.bat") ++ dquote /\
   length cmd = 268).
Proof.
  intros Hin. apply launcher_update_call in Hin as [-> ->].
  rewrite update_cmdline_whole. split; [split|].
  - intros E. apply app_inv_head in E. apply app_inv_head in E.
    apply (f_equal (@length ascii)) in E.
    rewrite !length_app in E. pose proof (batch_path_length m) as Hl.
    unfold MAX_PATH in *. simpl in *. lia.
  - intros Hd. rewrite batch_path_whole by exact Hd. now rewrite <- app_assoc.
  - intros Hd. split; [reflexivity|].
    destruct (batch_path_cut m Hd) as [Hl _].
    rewrite !length_app, Hl. reflexivity.
Qed.

Lemma script_path_is_cut_beyond_witness :
  let m := Examples.machine_of Examples.long_path (Refused 2) (Started None) in
  In (1, call_update m)
    (history (final (launcher m Examples.junk_x 1 [] 10))) /\
  MAX_PATH - 12 < length (install_dir m) /\
  length (update_cmdline m) = 268.
Proof.
  intros m.
  assert (Hin : In (1, call_update m)
                  (history (final (launcher m Examples.junk_x 1 [] 10)))).
  { vm_compute. right. left. reflexivity. }
  assert (Hd : MAX_PATH - 12 < length (install_dir m)).
  { vm_compute. repeat constructor. }
  split; [exact Hin|]. split; [exact Hd|].
  exact (proj2 (proj2 (script_path_is_cut_beyond m Examples.junk_x 1 [] 10 1
                         _ _ _ _ _ Hin) Hd)).
Defined.

(** X6.  A launcher whose own file name is at least as long as
    [update.bat] cannot have its script path cut: when the path of the
    executable fits [MAX_PATH] and is [d], a backslash and a file name of
    ten characters or more, the update step is started in [d] with
    [cmd /c "d\update.bat"] in full. *)
Theorem long_file_name_leaves_room
  m junk argc argv fuel t app cmd inh cwd si d f :
  cstr (module_file_name m) = d ++ "\"%char :: f ->
  ~ In "\"%char f ->
  length (d ++ "\"%char :: f) < MAX_PATH ->
  length (lit "update.bat") <= length f ->
  In (t, CallCreateProcessA app cmd inh CREATE_NO_WINDOW cwd si)
    (history (final (launcher m junk argc argv fuel))) ->
  cwd = d /\
  cmd = lit "cmd /c " ++ dquote ++ d ++ lit "\update.bat" ++ dquote.
Proof.
  intros E Hf Hfit Hlen Hin. apply launcher_update_call in Hin as [-> ->].
  assert (Hd : install_dir m = d).
  { unfold install_dir. rewrite exe_path_fits by (rewrite E; exact Hfit).
    rewrite E. apply dirname_split; [|exact Hf].
    rewrite <- E. apply cstr_nul_free. }
  split; [exact Hd|].
  rewrite update_cmdline_whole, batch_path_whole, Hd.
  - now rewrite <- app_assoc.
  - rewrite Hd. rewrite length_app in Hfit. unfold MAX_PATH in *.
    simpl in *. lia.
Qed.

Lemma long_file_name_leaves_room_witness :
  let m := Examples.machine_of Examples.tool_path (Refused 2) (Started None) in
  In (1, call_update m)
    (history (final (launcher m Examples.junk_x 1 [] 10))) /\
  update_cmdline m =
    lit "cmd /c " ++ dquote ++ lit "C:\Apps\Tool" ++ lit "\update.bat"
      ++ dquote.
Proof.
  intros m.
  assert (Hin : In (1, call_update m)
                  (history (final (launcher m Examples.junk_x 1 [] 10)))).
  { vm_compute. right. left. reflexivity. }
  split; [exact Hin|].
  refine (proj2 (long_file_name_leaves_room m Examples.junk_x 1 [] 10 1
                   _ _ _ _ _ (lit "C:\Apps\Tool") (lit "update.exe")
                   eq_refl _ _ _ Hin)).
  - vm_compute. intuition discriminate.
  - vm_compute. repeat constructor.
  - vm_compute. repeat constructor.
Defined.

(** X7.  Dialog and exit code.  A run that returns 0 has shown no dialog
    and a run that returns 1 has shown exactly one; a run stuck in the
    wait has shown none.  So the dialog appears if and only if the
    launcher reports failure. *)
Theorem dialog_if_and_only_if_failure m junk argc argv fuel :
  (forall code w,
     launcher m junk argc argv fuel = Exited code w ->
     (code = 0%Z <-> dialogs w = []) /\
     (code = 1%Z <-> length (dialogs w) = 1)) /\
  (forall w, launcher m junk argc argv fuel = Blocked w -> dialogs w = []).
Proof.
  split.
  - intros code w E.
    assert (E' : behaviour m = Exited code w).
    { rewrite <- E. symmetry. apply launcher_ended. now rewrite E. }
    clear E. behaviour_cases E'; try discriminate E';
      apply Exited_inj in E' as [<- <-]; cbn [dialogs length];
      repeat split; intros; try reflexivity; discriminate.
  - intros w E.
    assert (E' : behaviour m = Blocked w).
    { rewrite <- E. symmetry. apply launcher_ended. now rewrite E. }
    clear E. behaviour_cases E'; try discriminate E'.
    injection E' as <-. reflexivity.
Qed.

Lemma dialog_if_and_only_if_failure_witness :
  let m := Examples.machine_of Examples.tool_path (Started (Some 50))
             (Started None) in
  let o := launcher m Examples.junk_x 1 [] 10 in
  o = Exited 0 (final o) /\ dialogs (final o) = [].
Proof.
  intros m o.
  assert (E : o = Exited 0 (final o)) by (vm_compute; reflexivity).
  split; [exact E|].
  exact (proj1 (proj1 (proj1 (dialog_if_and_only_if_failure m Examples.junk_x
                                1 [] 10) 0%Z (final o) E)) eq_refl).
Defined.

(** X8.  The only wait.  Every wait the launcher issues is its third call,
    has no time-out, and is on the process handle of an update step that
    was created: the launcher never waits for the main application and
    never waits when the update step did not start. *)
Theorem only_the_update_step_is_waited_for m junk argc argv fuel t h ms :
  In (t, CallWaitForSingleObject h ms)
    (history (final (launcher m junk argc argv fuel))) ->
  ms = INFINITE /\ t = 2 /\
  exists lifetime,
    spawn m 1 (update_cmdline m) CREATE_NO_WINDOW (install_dir m)
      = Started lifetime /\
    h = p_hProcess (update_process m lifetime).
Proof.
  intros Hin. apply in_history_prefix in Hin. unfold behaviour in Hin.
  destruct (spawn m 1 _ _ _) as [e1|[l|]] eqn:S1;
    try main_app_cases Hin; entries Hin;
    (injection Hc as <- <-; repeat split; eexists; split; reflexivity).
Qed.

Lemma only_the_update_step_is_waited_for_witness :
  let m := Examples.machine_of Examples.tool_path (Started (Some 50))
             (Started None) in
  In (2, CallWaitForSingleObject 4 INFINITE)
    (history (final (launcher m Examples.junk_x 1 [] 10))) /\
  exists lifetime,
    spawn m 1 (update_cmdline m) CREATE_NO_WINDOW (install_dir m)
      = Started lifetime /\
    4%Z = p_hProcess (update_process m lifetime).
Proof.
  intros m.
  assert (Hin : In (2, CallWaitForSingleObject 4 INFINITE)
                  (history (final (launcher m Examples.junk_x 1 [] 10)))).
  { vm_compute. right. right. left. reflexivity. }
  split; [exact Hin|].
  exact (proj2 (proj2 (only_the_update_step_is_waited_for m Examples.junk_x
                         1 [] 10 2 4 INFINITE Hin))).
Defined.

(** The handle invariant holds in an explicit world. *)
Ltac handles_in_order :=
  cbn [final];
  first [exists 0; split; reflexivity | exists 1; split; reflexivity
        |exists 2; split; reflexivity | exists 3; split; reflexivity
        |exists 4; split; reflexivity].

(** One more call of the run, the invariant holding if the fuel ends
    here. *)
Ltac onward fuel m :=
  destruct fuel as [|fuel]; [rewrite run_out; handles_in_order|];
  call m.

Ltac at_return fuel :=
  destruct fuel as [|fuel]; [rewrite run_out | rewrite run_ret];
  handles_in_order.

(** X9.  Handles are closed in the order received.  At every point of
    every run the handles closed so far are an initial part of the handles
    received so far, and the handles still open are the rest of them: the
    launcher closes only handles it was given, in the order it was given
    them, and what it has not closed yet is exactly what is still open. *)
Theorem handles_closed_in_the_order_received m junk argc argv fuel :
  exists k,
    closed_handles (final (launcher m junk argc argv fuel)) =
      firstn k (received_handles (final (launcher m junk argc argv fuel))) /\
    map fst (handles (final (launcher m junk argc argv fuel))) =
      skipn k (received_handles (final (launcher m junk argc argv fuel))).
Proof.
  unfold launcher, main, main_with. compute_call.
  onward fuel m. onward fuel m.
  destruct (spawn m 1 (update_cmdline m) CREATE_NO_WINDOW (install_dir m))
    as [e1|[l|]].
  - rewrite run_ret_inner. compute_call. onward fuel m.
    destruct (spawn m 2 (main_cmdline m) 48 (install_dir m)) as [e2|l2].
    + onward fuel m. onward fuel m. at_return fuel.
    + onward fuel m. onward fuel m. at_return fuel.
  - onward fuel m. onward fuel m. onward fuel m. onward fuel m.
    rewrite run_ret_inner. compute_call. onward fuel m.
    match goal with |- context [spawn m ?a ?b ?c ?d] =>
      destruct (spawn m a b c d) as [e2|l2] end.
    + onward fuel m. onward fuel m. at_return fuel.
    + onward fuel m. onward fuel m. at_return fuel.
  - onward fuel m. handles_in_order.
Qed.
